(** * SamparkX: the retrieval engine (chunker, vector store, retriever)

    A shallow embedding of [app/rag/ingest.py] (the chunker),
    [app/rag/vector_store.py] (the FAISS-backed store) and
    [app/rag/retrieve.py] (the cached store accessor), followed by the
    properties of these functions.

    Conventions.
    - A Python [str] is a [string]; a character is its code point (below
      256), [len] is [String.length].
    - A Python [int] is a [Z]; [len] of a list is a [nat].
    - A call that raises is a [Raise e]; a method that mutates [self]
      returns the state it leaves behind together with its outcome, also
      when it raises.
    - The file system is a finite map from paths, as the program spells
      them, to nodes; a directory that [os.makedirs] makes on the way to
      its path is not in the map. *)

From Stdlib Require Import ZArith Ascii String SpecFloat Sorted Permutation.
From stdpp Require Import gmap strings list sorting.

Local Open Scope string_scope.
Local Open Scope list_scope.
Local Open Scope Z_scope.

(** ** Python prelude *)

Inductive exn : Set :=
  | OverflowError | ValueError | AssertionError | IndexError | KeyError
  | FileExistsError | FileNotFoundError | IsADirectoryError
  | NotADirectoryError | RuntimeError | UnpicklingError.

Inductive result (A : Type) : Type :=
  | Ok (a : A)
  | Raise (e : exn).
Arguments Ok {A} a.
Arguments Raise {A} e.

#[global] Instance result_ret : MRet result := λ A, Ok.
#[global] Instance result_bind : MBind result := λ A B f m,
  match m with Ok a => f a | Raise e => Raise e end.

(** [str.isspace] on the code points below 256: TAB..CR, FS..US, SPACE,
    NEL and NBSP. *)
Definition isspace (c : ascii) : bool :=
  let n := N_of_ascii c in
  (((9 <=? n) && (n <=? 13)) || ((28 <=? n) && (n <=? 32))
   || (n =? 133) || (n =? 160))%N.

(** [text.split()]: the maximal runs of non-whitespace characters, in
    order.  [w] is the word being read. *)
Fixpoint split_from (w : string) (text : string) : list string :=
  match text with
  | EmptyString => match w with EmptyString => [] | _ => [w] end
  | String c rest =>
      if isspace c
      then match w with
           | EmptyString => split_from "" rest
           | _ => w :: split_from "" rest
           end
      else split_from (w +:+ String c "") rest
  end.

Definition split (text : string) : list string := split_from "" text.

(** [sep.join(words)] *)
Fixpoint join (sep : string) (words : list string) : string :=
  match words with
  | [] => ""
  | [w] => w
  | w :: rest => w +:+ sep +:+ join sep rest
  end.

(** [l[-k:]] for [k > 0]: the last [k] elements, all of [l] when it has
    no more than [k]. *)
Definition slice_last {A} (k : Z) (l : list A) : list A :=
  drop (length l - Z.to_nat k)%nat l.

(** [l[i]] with Python's negative indices. *)
Definition getitem {A} (l : list A) (i : Z) : result A :=
  let n := Z.of_nat (length l) in
  let j := if i <? 0 then i + n else i in
  if (0 <=? j) && (j <? n)
  then match l !! Z.to_nat j with Some x => Ok x | None => Raise IndexError end
  else Raise IndexError.

(** *** Binary64 arithmetic, for the one float expression of the chunker *)

(** [float(z)], rounded to nearest even. *)
Definition float_of_int (z : Z) : spec_float :=
  binary_normalize 53 1024 z 0 false.

(** The least magnitude that rounds past the largest float. *)
Definition float_int_bound : Z := 2 ^ 1024 - 2 ^ 970.

(** The conversion of the left operand of [int / float]: an [int] that
    rounds past the largest float raises. *)
Definition float_of_int_checked (z : Z) : result spec_float :=
  if Z.abs z <? float_int_bound
  then Ok (float_of_int z)
  else Raise OverflowError.

(** [a / b] on two [int]s that are exact as floats (below [2 ^ 53], as
    every length is). *)
Definition int_truediv (a b : Z) : spec_float :=
  SFdiv 53 1024 (float_of_int a) (float_of_int b).

(** [int(f)] for a finite [f]: truncation toward zero.  (On an
    infinity or a NaN Python raises; the chunker only converts the
    quotient of a finite float by an average word length, which is at
    least 2.) *)
Definition int_of_float (f : spec_float) : Z :=
  match f with
  | S754_finite s m e =>
      let v := Z.shiftl (Z.pos m) e in
      if s then - v else v
  | _ => 0
  end.

(** ** ingest.py: the chunker *)

(** [sum(len(w) + 1 for w in current_chunk)] *)
Definition chunk_length (current_chunk : list string) : Z :=
  foldr (λ w acc, Z.of_nat (String.length w) + 1 + acc) 0 current_chunk.

(** [int(overlap / (current_length / len(current_chunk)))] *)
Definition overlap_words_of (overlap current_length : Z) (n : nat)
  : result Z :=
  o ← float_of_int_checked overlap;
  Ok (int_of_float (SFdiv 53 1024 o (int_truediv current_length (Z.of_nat n)))).

(** The [for word in words] loop.  The state is [chunks],
    [current_chunk] and [current_length]. *)
Fixpoint chunk_loop (chunk_size overlap : Z) (words : list string)
    (chunks current_chunk : list string) (current_length : Z)
  : result (list string * list string) :=
  match words with
  | [] => Ok (chunks, current_chunk)
  | word :: rest =>
      let current_chunk := current_chunk ++ [word] in
      let current_length := current_length + (Z.of_nat (String.length word) + 1) in
      if chunk_size <=? current_length then
        let chunks := chunks ++ [join " " current_chunk] in
        overlap_words ←
          overlap_words_of overlap current_length (length current_chunk);
        let current_chunk :=
          if 0 <? overlap_words then slice_last overlap_words current_chunk
          else [] in
        chunk_loop chunk_size overlap rest chunks current_chunk
          (chunk_length current_chunk)
      else
        chunk_loop chunk_size overlap rest chunks current_chunk current_length
  end.

Definition chunk_text (text : string) (chunk_size overlap : Z)
  : result (list string) :=
  '(chunks, current_chunk) ←
    chunk_loop chunk_size overlap (split text) [] [] 0;
  Ok (match current_chunk with
      | [] => chunks
      | _ => chunks ++ [join " " current_chunk]
      end).

(** What "the concatenation of the chunks, de-duplicating the overlapping
    suffix" is measured against.  A group is the word list of one chunk
    together with the number of its leading words that repeat the end
    of the chunk before it. *)
Definition dedup (groups : list (nat * list string)) : list string :=
  concat (map (λ g, drop g.1 g.2) groups).

(** [overlapping prev groups]: the repeated leading words of every group
    are exactly the last words of its predecessor ([prev] for the first). *)
Fixpoint overlapping (prev : list string) (groups : list (nat * list string))
  : Prop :=
  match groups with
  | [] => True
  | (ov, ws) :: rest =>
      (ov ≤ length prev)%nat ∧ (ov ≤ length ws)%nat ∧
      take ov ws = drop (length prev - ov)%nat prev ∧
      overlapping ws rest
  end.

(** A word as [split] produces them: not empty, no whitespace in it. *)
Fixpoint no_space (w : string) : bool :=
  match w with
  | EmptyString => true
  | String c rest => negb (isspace c) && no_space rest
  end.

Definition is_word (w : string) : Prop := w ≠ "" ∧ no_space w = true.

(** What the loop keeps true: [done] are the words consumed so far,
    [groups] the chunks emitted so far, [carried] the number of leading
    words of [current_chunk] taken over from the last emitted chunk. *)
Definition loop_inv (done : list string) (groups : list (nat * list string))
    (chunks current_chunk : list string) (carried : nat) : Prop :=
  chunks = map (λ g, join " " g.2) groups ∧
  dedup groups ++ drop carried current_chunk = done ∧
  overlapping [] (groups ++ [(carried, current_chunk)]) ∧
  Forall (λ g, g.2 ≠ [] ∧ ∃ a b, done = a ++ g.2 ++ b) groups ∧
  (∃ a, done = a ++ current_chunk).

(** ** numpy and faiss

    The two libraries are modelled by what the calls made by the store
    do: [np.array(...).astype('float32')], [faiss.IndexFlatL2(d)],
    [index.add], [index.search], [faiss.write_index] and
    [faiss.read_index]. *)

(** The numbers of the index: Python floats, their [float32] roundings,
    [float32] arithmetic and the comparison of two distances.  The
    comparison is a total preorder: no NaN among the distances. *)
Class Float32 : Type := {
  pyfloat : Type;
  float32 : Type;
  astype_float32 : pyfloat → float32;
  float : float32 → pyfloat;
  f32_zero : float32;
  f32_max : float32;
  f32_add : float32 → float32 → float32;
  f32_sub : float32 → float32 → float32;
  f32_mul : float32 → float32 → float32;
  f32_leb : float32 → float32 → bool;
  f32_leb_total : ∀ x y, f32_leb x y = true ∨ f32_leb y x = true;
  f32_leb_trans : ∀ x y z,
    f32_leb x y = true → f32_leb y z = true → f32_leb x z = true
}.

Lemma Zleb_total (x y : Z) : (x <=? y) = true ∨ (y <=? x) = true.
Proof. rewrite !Z.leb_le. lia. Qed.

Lemma Zleb_trans (x y z : Z) :
  (x <=? y) = true → (y <=? z) = true → (x <=? z) = true.
Proof. rewrite !Z.leb_le. lia. Qed.

(** Floats that are integers of small magnitude, on which [float32]
    arithmetic is exact. *)
Definition exact_ints : Float32 := {|
  pyfloat := Z; float32 := Z;
  astype_float32 := id; float := id;
  f32_zero := 0; f32_max := 2 ^ 128 - 2 ^ 104;
  f32_add := Z.add; f32_sub := Z.sub; f32_mul := Z.mul;
  f32_leb := Z.leb;
  f32_leb_total := Zleb_total; f32_leb_trans := Zleb_trans
|}.

Module np.
Section np.
Context `{F32 : Float32}.

(** [np.array(rows).astype('float32')] as the two-dimensional array
    faiss unpacks ([n, d = x.shape]): the number of columns and the
    rows.  Rows of unequal length, or no row at all, do not make one. *)
Definition array (rows : list (list pyfloat))
  : result (nat * list (list float32)) :=
  match rows with
  | [] => Raise ValueError
  | r :: rest =>
      if forallb (λ r', (length r' =? length r)%nat) rest
      then Ok (length r, map (map astype_float32) rows)
      else Raise ValueError
  end.
End np.
End np.

Module faiss.
Section faiss.
Context `{F32 : Float32}.

(** [faiss.IndexFlatL2]: the dimension and the stored vectors, in
    insertion order. *)
Record IndexFlatL2 : Type := { d : Z; xb : list (list float32) }.

Definition new (dimension : Z) : IndexFlatL2 :=
  {| d := dimension; xb := [] |}.

Definition ntotal (idx : IndexFlatL2) : nat := length (xb idx).

(** [index.add(x)]: [assert d == self.d], then the rows are appended. *)
Definition add (idx : IndexFlatL2) (x : nat * list (list float32))
  : result IndexFlatL2 :=
  if Z.of_nat x.1 =? d idx
  then Ok {| d := d idx; xb := xb idx ++ x.2 |}
  else Raise AssertionError.

(** The squared Euclidean distance, accumulated left to right. *)
Definition fvec_L2sqr (x y : list float32) : float32 :=
  foldl (λ acc p, f32_add acc (f32_mul (f32_sub p.1 p.2) (f32_sub p.1 p.2)))
    f32_zero (zip x y).

(** A hit is a distance and the label (ordinal) of a stored vector. *)
Fixpoint insert_hit (h : float32 * Z) (l : list (float32 * Z))
  : list (float32 * Z) :=
  match l with
  | [] => [h]
  | h' :: l' =>
      if f32_leb h.1 h'.1 then h :: l else h' :: insert_hit h l'
  end.

(** All hits by ascending distance, equal distances by ascending label. *)
Definition rank (hits : list (float32 * Z)) : list (float32 * Z) :=
  foldr insert_hit [] hits.

Definition all_hits (idx : IndexFlatL2) (q : list float32)
  : list (float32 * Z) :=
  imap (λ i y, (fvec_L2sqr q y, Z.of_nat i)) (xb idx).

(** [index.search(x, k)] for a one-row [x]: [assert d == self.d],
    [assert k > 0], then the [k] nearest stored vectors, nearest first;
    when fewer than [k] are stored, the missing hits have label [-1]
    and distance [FLT_MAX]. *)
Definition search (idx : IndexFlatL2) (x : nat * list float32) (k : Z)
  : result (list (float32 * Z)) :=
  if negb (Z.of_nat x.1 =? d idx) then Raise AssertionError
  else if negb (0 <? k) then Raise AssertionError
  else
    let ranked := rank (all_hits idx x.2) in
    Ok (take (Z.to_nat k) ranked
        ++ replicate (Z.to_nat k - ntotal idx) (f32_max, -1)).
End faiss.
End faiss.

(** *** What a nearest-neighbour query is to return *)

Section nearest.
Context `{F32 : Float32}.


End nearest.

(** ** The file system and the two kinds of artifact *)

(** The values of a metadata record. *)
Inductive pyval : Set := VStr (s : string) | VInt (z : Z).

Abbreviation Dict := (gmap string pyval).

Module os.
Section os.
Context `{F32 : Float32}.

(** What [data.pkl] unpickles to: a dict, with the values under
    ['chunks'] and ['metadata'] when it has these keys. *)
Record pickled : Type := {
  p_chunks : option (list string);
  p_metadata : option (list Dict)
}.

(** The content of a file: a serialized index, a pickle, nothing (a
    file just opened for writing), or anything else. *)
Inductive file : Type :=
  | FaissFile (idx : faiss.IndexFlatL2)
  | PickleFile (data : pickled)
  | EmptyFile
  | OtherFile.

Inductive node : Type := Dir | File (content : file).

Definition starts_with_slash (p : string) : bool :=
  match p with String "/" _ => true | _ => false end.

Fixpoint ends_with_slash (p : string) : bool :=
  match p with
  | EmptyString => false
  | String c EmptyString => bool_decide (c = "/"%char)
  | String _ rest => ends_with_slash rest
  end.

(** [os.path.join(a, b)] *)
Definition path_join (a b : string) : string :=
  if starts_with_slash b then b
  else if bool_decide (a = "") || ends_with_slash a then a +:+ b
  else a +:+ "/" +:+ b.

(** [os.path.exists(p)] *)
Definition path_exists (p : string) (fs : gmap string node) : bool :=
  bool_decide (is_Some (fs !! p)).

(** What is left of [p] after [a], when [p] starts with [a]. *)
Fixpoint rest_after (a p : string) : option string :=
  match a, p with
  | EmptyString, _ => Some p
  | String c a', String c' p' =>
      if bool_decide (c = c') then rest_after a' p' else None
  | String _ _, EmptyString => None
  end.

Fixpoint slashes (s : string) : bool :=
  match s with
  | EmptyString => true
  | String c rest => bool_decide (c = "/"%char) && slashes rest
  end.

(** [a] is on the way to [p]: [p] goes on after [a] with a slash and a
    further component. *)
Definition above (a p : string) : bool :=
  match rest_after a p with
  | Some (String "/" rest) => negb (slashes rest)
  | _ => false
  end.

(** [p] is [a] with slashes at its end: the same node, spelled as a
    directory. *)
Definition with_slashes (a p : string) : bool :=
  match rest_after a p with
  | Some (String "/" rest) => slashes rest
  | _ => false
  end.

Definition is_file (n : node) : bool :=
  match n with File _ => true | Dir => false end.

(** Some regular file of [fs] has a path that passes [test]. *)
Definition some_file (test : string → bool) (fs : gmap string node)
  : bool :=
  bool_decide (map_Exists (λ a n, is_file n = true ∧ test a = true) fs).


(** [os.makedirs(p, exist_ok=True)].  A regular file on the way to [p]
    makes [mkdir] fail with [ENOTDIR], a regular file that is [p] but
    for slashes at the end with [EEXIST], and [exist_ok] forgives
    neither.  The directories made on the way to [p] are not tracked. *)
Definition makedirs (p : string) (fs : gmap string node)
  : result (gmap string node) :=
  if bool_decide (p = "") then Raise FileNotFoundError
  else if some_file (λ a, above a p) fs then Raise NotADirectoryError
  else if some_file (λ a, with_slashes a p) fs then Raise FileExistsError
  else match fs !! p with
       | Some (File _) => Raise FileExistsError
       | Some Dir => Ok fs
       | None => Ok (<[p := Dir]> fs)
       end.

(** [open(p, 'wb')]: the file is created or truncated. *)
Definition open_wb (p : string) (fs : gmap string node)
  : result (gmap string node) :=
  match fs !! p with
  | Some Dir => Raise IsADirectoryError
  | _ => Ok (<[p := File EmptyFile]> fs)
  end.

(** [pickle.dump(data, f)] and the close of [f], opened on [p]. *)
Definition pickle_dump (data : pickled) (p : string)
    (fs : gmap string node) : result (gmap string node) :=
  Ok (<[p := File (PickleFile data)]> fs).

(** [open(p, 'rb')] followed by [pickle.load]. *)
Definition pickle_load (p : string) (fs : gmap string node)
  : result pickled :=
  match fs !! p with
  | None => Raise FileNotFoundError
  | Some Dir => Raise IsADirectoryError
  | Some (File (PickleFile data)) => Ok data
  | Some (File EmptyFile) => Raise UnpicklingError
  | Some (File _) => Raise UnpicklingError
  end.

(** [faiss.write_index(idx, p)] *)
Definition write_index (idx : faiss.IndexFlatL2) (p : string)
    (fs : gmap string node) : result (gmap string node) :=
  match fs !! p with
  | Some Dir => Raise RuntimeError
  | _ => Ok (<[p := File (FaissFile idx)]> fs)
  end.

(** [faiss.read_index(p)] *)
Definition read_index (p : string) (fs : gmap string node)
  : result faiss.IndexFlatL2 :=
  match fs !! p with
  | Some (File (FaissFile idx)) => Ok idx
  | _ => Raise RuntimeError
  end.

(** A sequence of writes, run until one raises: the outcome with the
    file system it leaves, and the file systems an observer can see
    after each completed write. *)
Fixpoint run (steps : list (gmap string node → result (gmap string node)))
    (fs : gmap string node) : result unit * gmap string node :=
  match steps with
  | [] => (Ok (), fs)
  | step :: rest =>
      match step fs with
      | Ok fs' => run rest fs'
      | Raise e => (Raise e, fs)
      end
  end.

Fixpoint observable
    (steps : list (gmap string node → result (gmap string node)))
    (fs : gmap string node) : list (gmap string node) :=
  match steps with
  | [] => []
  | step :: rest =>
      match step fs with
      | Ok fs' => fs' :: observable rest fs'
      | Raise _ => []
      end
  end.
End os.
End os.

(** ** vector_store.py *)

Section vector_store.
Context `{F32 : Float32}.

Record VectorStore : Type := {
  dimension : Z;
  index : faiss.IndexFlatL2;
  chunks : list string;
  metadata : list Dict
}.

Definition __init__ (dimension : Z) : VectorStore :=
  {| dimension := dimension; index := faiss.new dimension;
     chunks := []; metadata := [] |}.

Definition add_documents (self : VectorStore) (chunks' : list string)
    (embeddings : list (list pyfloat)) (metadata' : list Dict)
  : result unit * VectorStore :=
  match embeddings with
  | [] => (Ok (), self)
  | _ =>
      match np.array embeddings with
      | Raise e => (Raise e, self)
      | Ok embeddings_np =>
          match faiss.add (index self) embeddings_np with
          | Raise e => (Raise e, self)
          | Ok index' =>
              (Ok (),
               {| dimension := dimension self; index := index';
                  chunks := chunks self ++ chunks';
                  metadata := metadata self ++ metadata' |})
          end
      end
  end.

(** The loop over [zip(distances[0], indices[0])]. *)
Fixpoint results_of (self : VectorStore) (hits : list (float32 * Z))
  : result (list (string * Dict * pyfloat)) :=
  match hits with
  | [] => Ok []
  | (dist, idx) :: rest =>
      if idx <? Z.of_nat (length (chunks self)) then
        chunk ← getitem (chunks self) idx;
        meta ← getitem (metadata self) idx;
        results ← results_of self rest;
        Ok ((chunk, meta, float dist) :: results)
      else results_of self rest
  end.

Definition search (self : VectorStore) (query_embedding : list pyfloat)
    (k : Z) : result (list (string * Dict * pyfloat)) :=
  match chunks self with
  | [] => Ok []
  | _ =>
      let query_np :=
        (length query_embedding, map astype_float32 query_embedding) in
      hits ← faiss.search (index self) query_np
               (Z.min k (Z.of_nat (length (chunks self))));
      results_of self hits
  end.

Definition index_path (path : string) : string :=
  os.path_join path "index.faiss".
Definition data_path (path : string) : string :=
  os.path_join path "data.pkl".

(** The writes of [save], in program order. *)
Definition save_steps (self : VectorStore) (path : string)
  : list (gmap string os.node → result (gmap string os.node)) :=
  [ os.makedirs path;
    os.write_index (index self) (index_path path);
    os.open_wb (data_path path);
    os.pickle_dump {| os.p_chunks := Some (chunks self);
                      os.p_metadata := Some (metadata self) |}
      (data_path path) ].

Definition save (self : VectorStore) (path : string)
    (fs : gmap string os.node) : result unit * gmap string os.node :=
  os.run (save_steps self path) fs.

Definition load (self : VectorStore) (path : string)
    (fs : gmap string os.node) : result unit * VectorStore :=
  if negb (os.path_exists (index_path path) fs)
     || negb (os.path_exists (data_path path) fs)
  then (Ok (), self)
  else
    match os.read_index (index_path path) fs with
    | Raise e => (Raise e, self)
    | Ok index' =>
        let self := {| dimension := dimension self; index := index';
                       chunks := chunks self;
                       metadata := metadata self |} in
        match os.pickle_load (data_path path) fs with
        | Raise e => (Raise e, self)
        | Ok data =>
            match os.p_chunks data with
            | None => (Raise KeyError, self)
            | Some chunks' =>
                let self := {| dimension := dimension self;
                               index := index self; chunks := chunks';
                               metadata := metadata self |} in
                match os.p_metadata data with
                | None => (Raise KeyError, self)
                | Some metadata' =>
                    (Ok (),
                     {| dimension := dimension self; index := index self;
                        chunks := chunks self; metadata := metadata' |})
                end
            end
        end
    end.

(** The store after an accepted [add_documents]. *)
Definition extended (self : VectorStore) (chunks' : list string)
    (embeddings : list (list pyfloat)) (metadata' : list Dict)
  : VectorStore :=
  {| dimension := dimension self;
     index := {| faiss.d := faiss.d (index self);
                 faiss.xb := faiss.xb (index self)
                   ++ map (map astype_float32) embeddings |};
     chunks := chunks self ++ chunks';
     metadata := metadata self ++ metadata' |}.

(** The alignment of the three collections. *)
Definition aligned (self : VectorStore) : Prop :=
  length (chunks self) = length (metadata self) ∧
  length (metadata self) = faiss.ntotal (index self).

(** The vectors of [embeddings] all have the dimension of the index. *)
Definition fits (self : VectorStore) (embeddings : list (list pyfloat))
  : bool :=
  forallb (λ v, Z.of_nat (length v) =? faiss.d (index self)) embeddings.

(** Both artifacts of [snapshot] are in place under [path]. *)
Definition holds_snapshot (path : string) (fs : gmap string os.node)
    (snapshot : VectorStore) : Prop :=
  fs !! index_path path = Some (os.File (os.FaissFile (index snapshot))) ∧
  fs !! data_path path =
    Some (os.File (os.PickleFile
      {| os.p_chunks := Some (chunks snapshot);
         os.p_metadata := Some (metadata snapshot) |})).

End vector_store.

(** ** retrieve.py: the cached store *)

Section retrieve.
Context `{F32 : Float32}.

(** [os.path.dirname(os.path.dirname(os.path.dirname(__file__)))] *)
Variable base_dir : string.

(** The objects of the process, by address, and the module's global
    [_vector_store]: [None] or a reference to a store. *)
Record process : Type := {
  heap : list VectorStore;
  _vector_store : option nat
}.

Definition start : process := {| heap := []; _vector_store := None |}.

Definition store_path (org_name : string) : string :=
  os.path_join (os.path_join (os.path_join base_dir "data") org_name)
    "vector_store".

(** Returns the reference it hands out and the process afterwards.
    Whatever [load] raises is caught and logged; the store keeps what
    [load] had assigned by then. *)
Definition get_vector_store (org_name : string)
    (fs : gmap string os.node) (p : process) : nat * process :=
  match _vector_store p with
  | Some ref => (ref, p)
  | None =>
      let ref := length (heap p) in
      let store := __init__ 1536 in
      let store :=
        if os.path_exists (store_path org_name) fs
        then (load store (store_path org_name) fs).2
        else store in
      (ref, {| heap := heap p ++ [store]; _vector_store := Some ref |})
  end.
End retrieve.

(** ** Sample data for the concrete runs *)

Section sample_data.
#[local] Existing Instance exact_ints.

Definition meta (source : string) (chunk_index : Z) : Dict :=
  <["source" := VStr source]> (<["chunk_index" := VInt chunk_index]> ∅).

(** The two-chunk knowledge base of the specification's scenario, with
    its vectors scaled to integers. *)
Definition kb_store : VectorStore :=
  (add_documents (__init__ 3)
     ["A office hours 9-5"; "B contact support@x.com"]
     [[10; 0; 0]; [0; 10; 0]]
     [meta "faq.txt" 0; meta "faq.txt" 1]).2.

Definition fs_kb : gmap string os.node := (save kb_store "kb" ∅).2.

Definition new_store : VectorStore :=
  (add_documents (__init__ 3) ["C new address"] [[0; 0; 10]]
     [meta "moved.txt" 0]).2.

Definition store_a : VectorStore :=
  (add_documents (__init__ 1) ["A opening hours"] [[1]] [meta "a.txt" 0]).2.
Definition store_b : VectorStore :=
  (add_documents (__init__ 1) ["B refund policy"] [[2]] [meta "b.txt" 0]).2.

(** Both organizations have a snapshot on disk. *)
Definition fs_two : gmap string os.node :=
  (save store_b (store_path "/srv" "org_b")
     (save store_a (store_path "/srv" "org_a") ∅).2).2.

End sample_data.

(** ** The collaborators outside the repository

    What the code calls but does not define: the remote embedding
    service, the local embedding model, the PDF reader and [pathlib]'s
    rendering of a path.  [world] is whatever state these services keep
    (network, quota, loaded models); a call returns its outcome and the
    world afterwards, so that a function that makes no call leaves the
    world as it was. *)
Class Environment `{F32 : Float32} : Type := {
  world : Type;
  (** [OpenAI(api_key=...)] and one [client.embeddings.create(model=
      "text-embedding-ada-002", input=text)], down to
      [response.data[0].embedding] *)
  embeddings_create : world → string → result (list pyfloat) * world;
  (** [TRANSFORMERS_AVAILABLE] *)
  transformers_available : bool;
  (** [LocalEmbedder(model_name).embed_batch(texts)] *)
  embed_batch : world → string → list string
                → result (list (list pyfloat)) * world;
  (** whether [import PyPDF2] succeeds *)
  pypdf2_installed : bool;
  (** [str(Path(docs_path) / name)] *)
  path_str : string → string → string
}.

(** ** retrieve.py: the query path *)

Section retrieve_query.
Context `{Env : Environment}.
Variable base_dir : string.

Definition create_query_embedding (query : string) (w : world)
  : list pyfloat * world :=
  match embeddings_create w query with
  | (Ok embedding, w) => (embedding, w)
  | (Raise _, w) => ([], w)
  end.

(** The body of the [try]; the handler returns [[]].  What the calls
    before the exception did to the process and to the world stays
    done.  A reference that the heap does not hold is an exception like
    any other. *)
Definition retrieve_relevant_chunks (query : string) (k : Z)
    (org_name : string) (fs : gmap string os.node) (p : process) (w : world)
  : list string * process * world :=
  let '(ref, p) := get_vector_store base_dir org_name fs p in
  match heap p !! ref with
  | None => ([], p, w)
  | Some vector_store =>
      match chunks vector_store with
      | [] => ([], p, w)
      | _ =>
          let '(query_embedding, w) := create_query_embedding query w in
          match query_embedding with
          | [] => ([], p, w)
          | _ =>
              match search vector_store query_embedding k with
              | Ok results => (map (λ r, r.1.1) results, p, w)
              | Raise _ => ([], p, w)
              end
          end
      end
  end.
End retrieve_query.

(** ** ingest.py: documents, text extraction, embeddings, ingestion *)

(** A directory entry: its name, what [open(..., 'r',
    encoding='utf-8').read()] gives for it and what the pages of
    [PyPDF2.PdfReader] on it give with [extract_text()]; either may
    raise. *)
Record document : Type := {
  doc_name : string;
  doc_text : result string;
  doc_pages : result (list string)
}.

(** [name.endswith(suffix)] *)
Fixpoint ends_with (suffix name : string) : bool :=
  bool_decide (name = suffix) ||
  match name with
  | EmptyString => false
  | String _ rest => ends_with suffix rest
  end.

(** [Path(dir).glob('*' + suffix)] on the entries of the directory, in
    the order the directory gives them (names compared as on POSIX). *)
Definition glob (suffix : string) (entries : list document)
  : list document :=
  filter (λ f, ends_with suffix (doc_name f) = true) entries.

(** The part of [s] from its last dot on, if it has a dot. *)
Fixpoint from_last_dot (s : string) : option string :=
  match s with
  | EmptyString => None
  | String c rest =>
      match from_last_dot rest with
      | Some x => Some x
      | None => if bool_decide (c = "."%char) then Some s else None
      end
  end.

(** [Path(name).suffix]: from the last dot on, unless that dot is the
    first or the last character. *)
Definition suffix (name : string) : string :=
  match name with
  | EmptyString => ""
  | String _ rest =>
      match from_last_dot rest with
      | Some x => if bool_decide (x = ".") then "" else x
      | None => ""
      end
  end.

(** [c.lower()] on the code points below 256 *)
Definition lower_char (c : ascii) : ascii :=
  let n := N_of_ascii c in
  if (((65 <=? n) && (n <=? 90))
      || ((192 <=? n) && (n <=? 222) && negb (n =? 215)))%N
  then ascii_of_N (n + 32)
  else c.

Fixpoint lower (s : string) : string :=
  match s with
  | EmptyString => ""
  | String c rest => String (lower_char c) (lower rest)
  end.

(** [not text.strip()] *)
Fixpoint blank (text : string) : bool :=
  match text with
  | EmptyString => true
  | String c rest => isspace c && blank rest
  end.

Definition newline : string := String (ascii_of_nat 10) "".

Section ingest.
Context `{Env : Environment}.

Definition extract_text_from_file (file : document) : result string :=
  let ext := lower (suffix (doc_name file)) in
  if bool_decide (ext = ".txt") then doc_text file
  else if bool_decide (ext = ".pdf") then
    if pypdf2_installed then
      pages ← doc_pages file;
      Ok (foldl (λ text page, text +:+ page +:+ newline) "" pages)
    else Ok ""
  else Ok "".

(** The loop of [create_embeddings]: one call per text, in order; the
    first call that raises ends it. *)
Fixpoint embed_each (texts : list string) (w : world)
  : result (list (list pyfloat)) * world :=
  match texts with
  | [] => (Ok [], w)
  | text :: rest =>
      match embeddings_create w text with
      | (Raise e, w) => (Raise e, w)
      | (Ok embedding, w) =>
          match embed_each rest w with
          | (Raise e, w) => (Raise e, w)
          | (Ok embeddings, w) => (Ok (embedding :: embeddings), w)
          end
      end
  end.

Definition create_embeddings (texts : list string) (w : world)
  : list (list pyfloat) * world :=
  match embed_each texts w with
  | (Ok embeddings, w) => (embeddings, w)
  | (Raise _, w) => ([], w)
  end.

(** The dict that [ingest_documents] and [ingest_documents_local]
    return. *)
Record ingested : Type := {
  i_chunks : list string;
  i_embeddings : list (list pyfloat);
  i_metadata : list Dict
}.

(** The [for file_path in files] loop of [ingest_documents]. *)
Fixpoint ingest_files (files : list document)
    (all_chunks : list string) (all_metadata : list Dict)
  : result (list string * list Dict) :=
  match files with
  | [] => Ok (all_chunks, all_metadata)
  | file :: rest =>
      text ← extract_text_from_file file;
      if blank text then ingest_files rest all_chunks all_metadata
      else
        chunks' ← chunk_text text 500 50;
        ingest_files rest (all_chunks ++ chunks')
          (all_metadata
             ++ imap (λ i _, meta (doc_name file) (Z.of_nat i)) chunks')
  end.

(** [tree] gives the entries of every directory that exists. *)
Definition ingest_documents (path : string)
    (tree : gmap string (list document)) (w : world)
  : result ingested * world :=
  match tree !! path with
  | None =>
      (Ok {| i_chunks := []; i_embeddings := []; i_metadata := [] |}, w)
  | Some entries =>
      let files := glob ".txt" entries ++ glob ".pdf" entries in
      match ingest_files files [] [] with
      | Raise e => (Raise e, w)
      | Ok (all_chunks, all_metadata) =>
          let '(embeddings, w) := create_embeddings all_chunks w in
          (Ok {| i_chunks := all_chunks; i_embeddings := embeddings;
                 i_metadata := all_metadata |}, w)
      end
  end.
End ingest.

(** ** ingest_local.py and local_embeddings.py *)

Definition local_meta (source : string) (chunk_id : Z) (filename : string)
  : Dict :=
  <["source" := VStr source]>
    (<["chunk_id" := VInt chunk_id]> (<["filename" := VStr filename]> ∅)).

Section ingest_local.
Context `{Env : Environment}.

(** [texts] is a list here, as in every call of the repository. *)
Definition create_local_embeddings (texts : list string)
    (model_name : string) (w : world) : list (list pyfloat) * world :=
  if transformers_available then
    match embed_batch w model_name texts with
    | (Ok embeddings, w) => (embeddings, w)
    | (Raise _, w) => ([], w)
    end
  else ([], w).

(** The [for file_path in files] loop of [ingest_documents_local]: the
    body is a [try] whose handler logs and goes on. *)
Fixpoint ingest_files_local (docs_path : string) (files : list document)
    (all_chunks : list string) (all_metadata : list Dict)
  : list string * list Dict :=
  match files with
  | [] => (all_chunks, all_metadata)
  | file :: rest =>
      match extract_text_from_file file with
      | Raise _ => ingest_files_local docs_path rest all_chunks all_metadata
      | Ok text =>
          match chunk_text text 500 50 with
          | Raise _ =>
              ingest_files_local docs_path rest all_chunks all_metadata
          | Ok chunks' =>
              ingest_files_local docs_path rest (all_chunks ++ chunks')
                (all_metadata
                   ++ imap (λ i _, local_meta
                                     (path_str docs_path (doc_name file))
                                     (Z.of_nat i) (doc_name file)) chunks')
          end
      end
  end.

(** The two [return]s give the same dict: [embeddings] is empty when it
    is falsy. *)
Definition ingest_documents_local (docs_path model_name : string)
    (tree : gmap string (list document)) (w : world) : ingested * world :=
  let entries := default [] (tree !! docs_path) in
  let files := glob ".txt" entries ++ glob ".pdf" entries in
  let '(all_chunks, all_metadata) :=
    ingest_files_local docs_path files [] [] in
  let '(embeddings, w) := create_local_embeddings all_chunks model_name w in
  ({| i_chunks := all_chunks; i_embeddings := embeddings;
      i_metadata := all_metadata |}, w).
End ingest_local.

(** ** scripts/ingest_documents.py *)

Section ingest_cli.
Context `{Env : Environment}.

(** [os.path.dirname(os.path.dirname(os.path.abspath(__file__)))] *)
Variable base_dir : string.

(** [main], from the parsed arguments [--org] and [--docs-path] on; the
    result is the value handed to [sys.exit], or what was raised. *)
Definition main (org : string) (docs_path_arg : option string)
    (tree : gmap string (list document)) (fs : gmap string os.node)
    (w : world) : result Z * gmap string os.node * world :=
  let knowledge :=
    os.path_join (os.path_join (os.path_join base_dir "data") org)
      "knowledge" in
  let docs_path :=
    match docs_path_arg with
    | Some p => if bool_decide (p = "") then knowledge else p
    | None => knowledge
    end in
  if negb (bool_decide (is_Some (tree !! docs_path))) then (Ok 1, fs, w)
  else
    match ingest_documents docs_path tree w with
    | (Raise e, w) => (Raise e, fs, w)
    | (Ok result, w) =>
        match i_chunks result with
        | [] => (Ok 1, fs, w)
        | _ =>
            match add_documents (__init__ 1536) (i_chunks result)
                    (i_embeddings result) (i_metadata result) with
            | (Raise e, _) => (Raise e, fs, w)
            | (Ok _, vector_store) =>
                match save vector_store (store_path base_dir org) fs with
                | (Raise e, fs) => (Raise e, fs, w)
                | (Ok _, fs) => (Ok 0, fs, w)
                end
            end
        end
    end.
End ingest_cli.

(** ** config/loader.py *)

(** What [json.load] returns. *)
#[local] Unset Elimination Schemes.
Inductive json : Type :=
  | JNull
  | JBool (b : bool)
  | JInt (z : Z)
  | JFloat (f : spec_float)
  | JStr (s : string)
  | JList (l : list json)
  | JDict (d : list (string * json)).
#[local] Set Elimination Schemes.

Section loader.

(** [os.path.dirname(os.path.dirname(os.path.dirname(__file__)))] *)
Variable base : string.

Definition default_config (org_name : string) : json :=
  JDict [ ("org_name", JStr org_name);
          ("assistant_role", JStr "AI Assistant");
          ("language", JStr "English");
          ("tone", JStr "polite");
          ("knowledge_path", JStr ("data/" +:+ org_name +:+ "/knowledge/")) ].

(** [configs] gives, for every path that [open] finds, what [open] and
    [json.load] make of it; [cache] is the module's [_config_cache]. *)
Definition load_org_config (org_name : string) (path : option string)
    (configs : gmap string (result json)) (cache : gmap string json)
  : json * gmap string json :=
  match cache !! org_name with
  | Some config => (config, cache)
  | None =>
      let path :=
        match path with
        | Some p => p
        | None =>
            os.path_join
              (os.path_join (os.path_join base "data") org_name)
              "config.json"
        end in
      match configs !! path with
      | Some (Ok config) => (config, <[org_name := config]> cache)
      | None | Some (Raise FileNotFoundError) =>
          (default_config org_name, cache)
      | Some (Raise _) => (JDict [], cache)
      end
  end.
End loader.

(** ** Sample collaborators for the concrete runs *)

Section sample_services.
#[local] Existing Instance exact_ints.

(** A service that answers every text with the vector of 1536 entries
    all equal to the length of the text, and counts its calls. *)
Definition counting_service : Environment := {|
  world := nat;
  embeddings_create w text :=
    (Ok (replicate 1536 (Z.of_nat (String.length text))), S w);
  transformers_available := true;
  embed_batch w _ texts :=
    (Ok (map (λ text, replicate 384 (Z.of_nat (String.length text))) texts),
     S w);
  pypdf2_installed := true;
  path_str dir name := os.path_join dir name
|}.

(** A service whose every call raises, still counting. *)
Definition failing_service : Environment := {|
  world := nat;
  embeddings_create w _ := (Raise RuntimeError, S w);
  transformers_available := false;
  embed_batch w _ _ := (Raise RuntimeError, S w);
  pypdf2_installed := false;
  path_str dir name := os.path_join dir name
|}.

(** A service that raises on the texts of more than ten characters,
    still counting. *)
Definition short_text_service : Environment := {|
  world := nat;
  embeddings_create w text :=
    if (String.length text <=? 10)%nat
    then (Ok [Z.of_nat (String.length text)], S w)
    else (Raise RuntimeError, S w);
  transformers_available := true;
  embed_batch w _ texts :=
    (Ok (map (λ text, [Z.of_nat (String.length text)]) texts), S w);
  pypdf2_installed := true;
  path_str dir name := os.path_join dir name
|}.

Definition text_file (name text : string) : document :=
  {| doc_name := name; doc_text := Ok text; doc_pages := Raise ValueError |}.

Definition broken_file (name : string) : document :=
  {| doc_name := name; doc_text := Raise ValueError;
     doc_pages := Raise ValueError |}.

Definition sample_tree : gmap string (list document) :=
  {[ "docs" := [ text_file "faq.txt" "Office hours are 9 to 5.";
                 text_file "notes.md" "not ingested";
                 text_file "contact.txt" "Write to support@x.com." ] ]}.

(** What [ingest_documents] makes of [sample_tree] with
    [counting_service]. *)
Definition sample_ingested : ingested :=
  @Build_ingested exact_ints
    ["Office hours are 9 to 5."; "Write to support@x.com."]
    [replicate 1536 24; replicate 1536 23]
    [meta "faq.txt" 0; meta "contact.txt" 0].

Definition broken_tree : gmap string (list document) :=
  {[ "docs" := [ text_file "faq.txt" "Office hours are 9 to 5.";
                 broken_file "bad.txt";
                 text_file "contact.txt" "Write to support@x.com." ] ]}.
End sample_services.

(** * Properties *)

(** ** Strings and words *)

Lemma append_nil (u : string) : "" +:+ u = u.
Proof. reflexivity. Qed.

Lemma append_cons (a : ascii) (w u : string) :
  String a w +:+ u = String a (w +:+ u).
Proof. reflexivity. Qed.

Lemma append_snoc (w : string) (c : ascii) (u : string) :
  (w +:+ String c "") +:+ u = w +:+ String c u.
Proof.
  induction w as [|a w IH]; [done |].
  by rewrite !append_cons, IH.
Qed.

Lemma append_empty_r (w : string) : w +:+ "" = w.
Proof.
  induction w as [|a w IH]; [done |]. by rewrite append_cons, IH.
Qed.

Lemma append_length (a b : string) :
  String.length (a +:+ b) = (String.length a + String.length b)%nat.
Proof.
  induction a as [|c a IH]; [by rewrite append_nil |].
  rewrite append_cons. simpl. by rewrite IH.
Qed.

Lemma no_space_snoc (w : string) (c : ascii) :
  no_space w = true → isspace c = false →
  no_space (w +:+ String c "") = true.
Proof.
  intros Hw Hc. induction w as [|a w IH].
  - rewrite append_nil. simpl. by rewrite Hc.
  - rewrite append_cons. simpl in *.
    apply andb_true_iff in Hw as [-> Hw]. simpl. auto.
Qed.

(** Reading a whitespace-free run moves it into the word being read. *)
Lemma split_from_run (u w rest : string) :
  no_space u = true → split_from w (u +:+ rest) = split_from (w +:+ u) rest.
Proof.
  revert w. induction u as [|c u IH]; intros w Hu.
  - by rewrite append_nil, append_empty_r.
  - rewrite append_cons. simpl in *.
    apply andb_true_iff in Hu as [Hc Hu].
    apply negb_true_iff in Hc. rewrite Hc, IH by done.
    by rewrite append_snoc.
Qed.

Lemma split_from_words (text w : string) :
  no_space w = true → Forall is_word (split_from w text).
Proof.
  revert w. induction text as [|c text IH]; intros w Hw; simpl.
  - destruct w; [constructor | by repeat constructor].
  - destruct (isspace c) eqn:Hc.
    + destruct w; [by apply IH |].
      constructor; [by split | by apply IH].
    + apply IH. by apply no_space_snoc.
Qed.

Lemma split_words (text : string) : Forall is_word (split text).
Proof. by apply split_from_words. Qed.

Lemma split_from_space (w rest : string) :
  w ≠ "" → split_from w (String " " rest) = w :: split_from "" rest.
Proof. by destruct w. Qed.

(** [split] undoes [join " "] on words. *)
Lemma split_join (ws : list string) :
  Forall is_word ws → split (join " " ws) = ws.
Proof.
  unfold split. induction 1 as [|w ws [Hne Hw] Hws IH]; [done |].
  destruct ws as [|w' ws].
  - simpl. rewrite <- (append_empty_r w) at 1.
    rewrite split_from_run, append_nil by done. simpl. by destruct w.
  - change (join " " (w :: w' :: ws))
      with (w +:+ String " " (join " " (w' :: ws))).
    rewrite split_from_run, append_nil, split_from_space by done.
    by rewrite IH.
Qed.

(** ** The chunker *)

Lemma overlapping_grow prev gs c cur w :
  overlapping prev (gs ++ [(c, cur)]) →
  overlapping prev (gs ++ [(c, cur ++ [w])]).
Proof.
  revert prev. induction gs as [|[ov ws] gs IH]; intros prev; simpl.
  - intros (? & ? & Htake & _). rewrite length_app. simpl.
    repeat split; [lia | lia |].
    by rewrite take_app_le by lia.
  - intros (? & ? & ? & Hrest). auto.
Qed.

Lemma overlapping_emit prev gs c cur n :
  overlapping prev (gs ++ [(c, cur)]) →
  let next := drop (length cur - n)%nat cur in
  overlapping prev ((gs ++ [(c, cur)]) ++ [(length next, next)]).
Proof.
  intros Hov next. revert prev Hov.
  induction gs as [|[ov ws] gs IH]; intros prev; simpl.
  - intros (? & ? & ? & _). repeat split; try done.
    + unfold next. rewrite length_drop. lia.
    + rewrite firstn_all. unfold next at 1. f_equal.
      unfold next. rewrite length_drop. lia.
  - intros (? & ? & ? & Hrest). auto.
Qed.

Lemma dedup_snoc groups g : dedup (groups ++ [g]) = dedup groups ++ drop g.1 g.2.
Proof.
  unfold dedup. rewrite map_app, concat_app. simpl. by rewrite app_nil_r.
Qed.

Lemma overlapping_carried prev gs c cur :
  overlapping prev (gs ++ [(c, cur)]) → (c ≤ length cur)%nat.
Proof.
  revert prev. induction gs as [|[ov ws] gs IH]; intros prev; simpl.
  - tauto.
  - intros (_ & _ & _ & Hrest). eauto.
Qed.

Lemma overlapping_init prev gs g :
  overlapping prev (gs ++ [g]) → overlapping prev gs.
Proof.
  revert prev. induction gs as [|[ov ws] gs IH]; intros prev; simpl; [done |].
  intros (? & ? & ? & Hrest). eauto.
Qed.

Lemma loop_inv_append done groups chunks cur carried w :
  loop_inv done groups chunks cur carried →
  loop_inv (done ++ [w]) groups chunks (cur ++ [w]) carried.
Proof.
  intros (Hc & Hd & Hov & Hg & [a Ha]).
  pose proof (overlapping_carried _ _ _ _ Hov) as Hle.
  repeat split.
  - done.
  - rewrite drop_app_le by lia. by rewrite app_assoc, Hd.
  - by apply overlapping_grow.
  - eapply Forall_impl; [exact Hg |]. intros g [Hne (x & y & Hxy)].
    split; [done |]. exists x, (y ++ [w]). rewrite Hxy.
    by rewrite <- !app_assoc.
  - exists a. by rewrite Ha, app_assoc.
Qed.

Lemma loop_inv_emit done groups chunks cur carried n :
  cur ≠ [] →
  loop_inv done groups chunks cur carried →
  let next := drop (length cur - n)%nat cur in
  loop_inv done (groups ++ [(carried, cur)])
    (chunks ++ [join " " cur]) next (length next).
Proof.
  intros Hne (Hc & Hd & Hov & Hg & [a Ha]) next.
  repeat split.
  - by rewrite map_app, Hc.
  - rewrite dedup_snoc. simpl. rewrite drop_all. by rewrite app_nil_r.
  - by apply overlapping_emit.
  - apply Forall_app. split; [done |].
    constructor; [| done]. split; [done |].
    exists a, []. by rewrite app_nil_r.
  - exists (a ++ take (length cur - n)%nat cur).
    unfold next. by rewrite <- app_assoc, take_drop.
Qed.

Lemma overlap_words_of_ok (overlap current_length : Z) (n : nat) :
  Z.abs overlap < float_int_bound →
  ∃ z, overlap_words_of overlap current_length n = Ok z.
Proof.
  intros Hb%Z.ltb_lt. unfold overlap_words_of, float_of_int_checked.
  rewrite Hb. eexists. reflexivity.
Qed.

Lemma chunk_loop_inv (chunk_size overlap : Z) (words : list string) :
  Z.abs overlap < float_int_bound →
  ∀ chunks cur current_length done groups carried,
    loop_inv done groups chunks cur carried →
    ∃ chunks' cur' groups' carried',
      chunk_loop chunk_size overlap words chunks cur current_length
        = Ok (chunks', cur') ∧
      loop_inv (done ++ words) groups' chunks' cur' carried'.
Proof.
  intros Hb. induction words as [|w words IH];
    intros chunks cur L done groups carried Hinv.
  - exists chunks, cur, groups, carried. by rewrite app_nil_r.
  - apply (loop_inv_append _ _ _ _ _ w) in Hinv.
    replace (done ++ w :: words) with ((done ++ [w]) ++ words)
      by by rewrite <- app_assoc.
    simpl. destruct (chunk_size <=? _).
    + destruct (overlap_words_of_ok overlap
        (L + (Z.of_nat (String.length w) + 1)) (length (cur ++ [w])) Hb)
        as [z ->]. simpl.
      assert (∃ n, (if 0 <? z then slice_last z (cur ++ [w]) else [])
                   = drop (length (cur ++ [w]) - n)%nat (cur ++ [w]))
        as [n Hn].
      { destruct (0 <? z); [by exists (Z.to_nat z) |].
        exists 0%nat. by rewrite Nat.sub_0_r, drop_all. }
      rewrite Hn.
      apply (loop_inv_emit _ _ _ _ _ n) in Hinv; [| by destruct cur].
      by eapply IH.
    + by eapply IH.
Qed.

Lemma infix_words (words a g b : list string) :
  Forall is_word words → words = a ++ g ++ b → split (join " " g) = g.
Proof.
  intros Hw ->. apply split_join.
  by apply Forall_app in Hw as [_ [Hg _]%Forall_app].
Qed.

(** For every overlap that converts to a float, of either sign,
    [chunk_text] returns chunks each of which is a run of consecutive
    words of the text joined by single spaces; every chunk starts with a
    (possibly empty) repetition of the last words of the chunk before
    it, and the chunks without these repetitions give back the word
    sequence of the text. *)
Lemma chunk_text_groups (text : string) (chunk_size overlap : Z) :
  Z.abs overlap < float_int_bound →
  ∃ groups : list (nat * list string),
    chunk_text text chunk_size overlap
      = Ok (map (λ g, join " " g.2) groups) ∧
    Forall (λ g, g.2 ≠ [] ∧ split (join " " g.2) = g.2 ∧
                 ∃ a b, split text = a ++ g.2 ++ b) groups ∧
    overlapping [] groups ∧
    dedup groups = split text ∧
    (text = "" → groups = []).
Proof.
  intros Hb.
  destruct (chunk_loop_inv chunk_size overlap (split text) Hb
              [] [] 0 [] [] 0%nat)
    as (chunks & cur & groups & carried & Hloop & Hinv).
  { repeat split; try done. by exists []. }
  simpl in Hinv. destruct Hinv as (Hc & Hd & Hov & Hg & [a Ha]).
  pose proof (split_words text) as Hwords.
  assert (∀ gs, Forall (λ g : nat * list string,
                  g.2 ≠ [] ∧ ∃ a b, split text = a ++ g.2 ++ b) gs →
                Forall (λ g, g.2 ≠ [] ∧ split (join " " g.2) = g.2 ∧
                  ∃ a b, split text = a ++ g.2 ++ b) gs) as Hup.
  { intros gs Hgs. eapply Forall_impl; [exact Hgs |].
    intros g [Hne (x & y & Hxy)].
    repeat split; [done | by eapply infix_words | by exists x, y]. }
  assert (∃ gs, chunk_text text chunk_size overlap
                  = Ok (map (λ g, join " " g.2) gs) ∧
                Forall (λ g : nat * list string,
                  g.2 ≠ [] ∧ ∃ a b, split text = a ++ g.2 ++ b) gs ∧
                overlapping [] gs ∧ dedup gs = split text)
    as (gs & Heq & Hgs & Hovs & Hds).
  { unfold chunk_text. rewrite Hloop. simpl. destruct cur as [|w cur].
    - exists groups. rewrite Hc. repeat split; try done.
      + by eapply overlapping_init.
      + rewrite <- Hd. by rewrite drop_nil, app_nil_r.
    - exists (groups ++ [(carried, w :: cur)]).
      rewrite Hc, map_app. repeat split; try done.
      + apply Forall_app. split; [done |].
        constructor; [| done]. split; [done |].
        exists a, []. by rewrite app_nil_r.
      + by rewrite dedup_snoc. }
  exists gs. repeat split; try done.
  - by apply Hup.
  - intros ->. rewrite (eq_refl : chunk_text "" chunk_size overlap = Ok [])
      in Heq.
    injection Heq as Heq. symmetry in Heq. by apply map_eq_nil in Heq.
Qed.

Lemma chunk_length_nonneg (ws : list string) : 0 ≤ chunk_length ws.
Proof.
  unfold chunk_length. induction ws as [|w ws IH]; simpl; lia.
Qed.

(** The words of a text and their separators fit in the text, but for
    the separator counted after the last word. *)
Lemma split_from_length (text w : string) :
  chunk_length (split_from w text)
    ≤ Z.of_nat (String.length w) + Z.of_nat (String.length text) + 1.
Proof.
  revert w. induction text as [|c text IH]; intros w; simpl split_from.
  - destruct w; unfold chunk_length; simpl; lia.
  - destruct (isspace c).
    + destruct w as [|a w].
      * specialize (IH ""). simpl in *. lia.
      * specialize (IH "").
        change (chunk_length (String a w :: split_from "" text))
          with (Z.of_nat (String.length (String a w)) + 1
                + chunk_length (split_from "" text)).
        simpl in *. lia.
    + specialize (IH (w +:+ String c "")).
      rewrite append_length in IH. simpl in *. lia.
Qed.

(** While the running length stays below the chunk size the loop emits
    nothing, and so converts no overlap. *)
Lemma chunk_loop_no_emit (chunk_size overlap : Z) (words : list string) :
  ∀ chunks cur current_length,
    current_length + chunk_length words < chunk_size →
    chunk_loop chunk_size overlap words chunks cur current_length
      = Ok (chunks, cur ++ words).
Proof.
  induction words as [|w words IH]; intros chunks cur L HL.
  - by rewrite app_nil_r.
  - cbn [chunk_loop]. cbv zeta.
    change (chunk_length (w :: words))
      with (Z.of_nat (String.length w) + 1 + chunk_length words) in HL.
    pose proof (chunk_length_nonneg words).
    replace (chunk_size <=? L + (Z.of_nat (String.length w) + 1))
      with false by (symmetry; apply Z.leb_gt; lia).
    rewrite IH by lia. by rewrite <- app_assoc.
Qed.

(** C8: for every chunk size [s], every overlap [0 <= o < s] and every
    text (of fewer than [2^1024 - 2^970] characters), [chunk_text]
    returns chunks each of which is a run of consecutive words of the
    text joined by single spaces (no word is cut); every chunk starts
    with a (possibly empty) repetition of the last words of the chunk
    before it, and concatenating the chunks without these repetitions
    gives back the word sequence of the text.  The empty text yields no
    chunk.  (An overlap too large for a float is never converted: below
    a chunk size that exceeds it, a text of that length emits no chunk
    inside the loop.) *)
Theorem chunk_text_reconstructs (text : string) (chunk_size overlap : Z) :
  0 ≤ overlap < chunk_size →
  Z.of_nat (String.length text) < float_int_bound →
  ∃ groups : list (nat * list string),
    chunk_text text chunk_size overlap
      = Ok (map (λ g, join " " g.2) groups) ∧
    Forall (λ g, g.2 ≠ [] ∧ split (join " " g.2) = g.2 ∧
                 ∃ a b, split text = a ++ g.2 ++ b) groups ∧
    overlapping [] groups ∧
    dedup groups = split text ∧
    (text = "" → groups = []).
Proof.
  intros [H0 Hlt] Htext.
  destruct (decide (overlap < float_int_bound)) as [Hb | Hbig].
  { apply chunk_text_groups. lia. }
  pose proof (split_from_length text "") as Hlen. fold (split text) in Hlen.
  pose proof (split_words text) as Hwords.
  assert (chunk_text text chunk_size overlap
            = Ok (match split text with
                  | [] => []
                  | _ => [join " " (split text)]
                  end)) as ->.
  { unfold chunk_text. rewrite chunk_loop_no_emit by (simpl in *; lia).
    simpl. by destruct (split text). }
  destruct (split text) as [|w ws] eqn:Hs.
  - exists []. split_and!; done.
  - exists [(0%nat, w :: ws)]. split_and!.
    + done.
    + constructor; [| done]. split_and!.
      * done.
      * by apply split_join.
      * exists [], []. by rewrite app_nil_r.
    + simpl. split_and!; [lia | lia | done | done].
    + unfold dedup. simpl. by rewrite app_nil_r.
    + intros ->. discriminate Hs.
Qed.

(** ** The vector store: [add_documents] *)

Section store_properties.
Context `{F32 : Float32}.

Lemma fits_same_length (self : VectorStore) r rest :
  fits self (r :: rest) = true →
  forallb (λ r' : list pyfloat, (length r' =? length r)%nat) rest = true.
Proof.
  unfold fits. simpl. intros [Hr Hrest]%andb_true_iff.
  apply Z.eqb_eq in Hr. rewrite forallb_forall in Hrest.
  apply forallb_forall. intros v Hv. apply Hrest in Hv.
  apply Z.eqb_eq in Hv. apply Nat.eqb_eq. lia.
Qed.

Lemma same_length_fits (self : VectorStore) r rest :
  forallb (λ r' : list pyfloat, (length r' =? length r)%nat) rest = true →
  Z.of_nat (length r) = faiss.d (index self) →
  fits self (r :: rest) = true.
Proof.
  intros Hrest Hr. unfold fits. simpl.
  apply andb_true_iff. split; [by apply Z.eqb_eq |].
  rewrite forallb_forall in Hrest. apply forallb_forall.
  intros v Hv. apply Hrest, Nat.eqb_eq in Hv. apply Z.eqb_eq. lia.
Qed.

Lemma add_documents_accepts self chunks' embeddings metadata' :
  embeddings ≠ [] → fits self embeddings = true →
  add_documents self chunks' embeddings metadata'
    = (Ok (), extended self chunks' embeddings metadata').
Proof.
  destruct embeddings as [|r rest]; [done |]. intros _ Hfits.
  unfold add_documents, np.array.
  rewrite (fits_same_length _ _ _ Hfits).
  unfold faiss.add. simpl.
  unfold fits in Hfits. simpl in Hfits.
  apply andb_true_iff in Hfits as [-> _]. done.
Qed.

Lemma add_documents_rejects self chunks' embeddings metadata' :
  embeddings ≠ [] → fits self embeddings = false →
  ∃ e, add_documents self chunks' embeddings metadata' = (Raise e, self).
Proof.
  destruct embeddings as [|r rest]; [done |]. intros _ Hfits.
  unfold add_documents, np.array.
  destruct (forallb _ rest) eqn:Hsame; [| by eexists].
  unfold faiss.add. simpl.
  destruct (Z.of_nat (length r) =? faiss.d (index self)) eqn:Hr;
    [| by eexists].
  apply Z.eqb_eq in Hr.
  by rewrite (same_length_fits _ _ _ Hsame Hr) in Hfits.
Qed.

Lemma fits_false self embeddings v :
  v ∈ embeddings → Z.of_nat (length v) ≠ faiss.d (index self) →
  fits self embeddings = false.
Proof.
  intros Hv Hne. apply not_true_is_false. unfold fits.
  rewrite forallb_forall. intros Hall.
  apply list_elem_of_In, Hall, Z.eqb_eq in Hv. done.
Qed.

Lemma extended_aligned self chunks' embeddings metadata' :
  aligned self →
  length chunks' = length embeddings →
  length embeddings = length metadata' →
  aligned (extended self chunks' embeddings metadata').
Proof.
  unfold aligned, faiss.ntotal. simpl. intros [Hcm Hmi] Hce Hem.
  rewrite !length_app, length_map. lia.
Qed.
End store_properties.

(** ** The index: ranking *)

Section ranking.
Context `{F32 : Float32}.

Lemma insert_hit_perm h l : faiss.insert_hit h l ≡ₚ h :: l.
Proof.
  induction l as [|h' l IH]; simpl; [done |].
  destruct (f32_leb h.1 h'.1); [done |].
  rewrite IH. apply Permutation_swap.
Qed.


Lemma rank_perm hits : faiss.rank hits ≡ₚ hits.
Proof.
  induction hits as [|h hits IH]; simpl; [done |].
  by rewrite insert_hit_perm, IH.
Qed.




End ranking.

(** ** The vector store: [search] *)

Section search_properties.
Context `{F32 : Float32}.



End search_properties.

Section search_theorem.
Context `{F32 : Float32}.



End search_theorem.

(** ** The vector store: [save] and [load] *)

Section persistence.
Context `{F32 : Float32}.

Lemma path_join_differ a b b' :
  os.starts_with_slash b = false → os.starts_with_slash b' = false →
  b ≠ b' → os.path_join a b ≠ os.path_join a b'.
Proof.
  intros Hb Hb' Hne. unfold os.path_join. rewrite Hb, Hb'.
  destruct (bool_decide (a = "") || os.ends_with_slash a); intros Heq.
  - by apply (inj _) in Heq.
  - by apply (inj _), (inj _) in Heq.
Qed.

Lemma path_join_longer a b :
  os.starts_with_slash b = false → b ≠ "" → os.path_join a b ≠ a.
Proof.
  intros Hb Hne. unfold os.path_join. rewrite Hb.
  destruct (bool_decide (a = "") || os.ends_with_slash a); intros Heq.
  - rewrite <- (append_empty_r a) in Heq at 2. by apply (inj _) in Heq.
  - rewrite <- (append_empty_r a) in Heq at 2. by apply (inj _) in Heq.
Qed.

Lemma artifact_paths_differ path : index_path path ≠ data_path path.
Proof. by apply path_join_differ. Qed.

Lemma index_path_not_dir path : index_path path ≠ path.
Proof. by apply path_join_longer. Qed.

Lemma data_path_not_dir path : data_path path ≠ path.
Proof. by apply path_join_longer. Qed.

Lemma path_exists_Some p (fs : gmap string os.node) n :
  fs !! p = Some n → os.path_exists p fs = true.
Proof. intros Hp. unfold os.path_exists. by rewrite Hp, bool_decide_true. Qed.

Lemma path_exists_None p (fs : gmap string os.node) :
  fs !! p = None → os.path_exists p fs = false.
Proof.
  intros Hp. unfold os.path_exists. rewrite Hp.
  apply bool_decide_false. by intros [? ?].
Qed.

Lemma makedirs_Ok p (fs fs' : gmap string os.node) :
  os.makedirs p fs = Ok fs' → fs' = fs ∨ fs' = <[p := os.Dir]> fs.
Proof.
  unfold os.makedirs. destruct (bool_decide _); [done |].
  destruct (os.some_file _ fs); [done |].
  destruct (os.some_file _ fs); [done |].
  destruct (fs !! p) as [[|?]|]; intros [= <-]; auto.
Qed.

Lemma makedirs_clear p (fs fs' : gmap string os.node) :
  os.makedirs p fs = Ok fs' →
  p ≠ "" ∧
  os.some_file (λ a, os.above a p) fs = false ∧
  os.some_file (λ a, os.with_slashes a p) fs = false.
Proof.
  unfold os.makedirs. destruct (bool_decide _) eqn:Hp; [done |].
  apply bool_decide_eq_false in Hp.
  destruct (os.some_file (λ a, os.above a p) fs); [done |].
  by destruct (os.some_file (λ a, os.with_slashes a p) fs).
Qed.

Lemma some_file_insert test k n (fs : gmap string os.node) :
  os.some_file test fs = false →
  os.is_file n && test k = false →
  os.some_file test (<[k := n]> fs) = false.
Proof.
  unfold os.some_file. rewrite !bool_decide_eq_false.
  intros Hfs Hk (i & x & Hix & Hf & Ht).
  apply lookup_insert_Some in Hix as [[<- <-] | [Hne Hix]].
  - by rewrite Hf, Ht in Hk.
  - apply Hfs. by exists i, x.
Qed.

Lemma rest_after_length a p rest :
  os.rest_after a p = Some rest → (String.length a ≤ String.length p)%nat.
Proof.
  revert p. induction a as [|c a IH]; intros [|c' p]; simpl;
    [lia | lia | done |].
  destruct (bool_decide (c = c')); [| done].
  intros Hr%IH. lia.
Qed.

Lemma longer_not_on_the_way a p :
  (String.length p < String.length a)%nat →
  os.above a p = false ∧ os.with_slashes a p = false.
Proof.
  intros Hlen. unfold os.above, os.with_slashes.
  destruct (os.rest_after a p) as [rest|] eqn:Hr; [| done].
  apply rest_after_length in Hr. lia.
Qed.

Lemma path_join_length a b :
  os.starts_with_slash b = false →
  (String.length a + String.length b ≤ String.length (os.path_join a b))%nat.
Proof.
  intros Hb. unfold os.path_join. rewrite Hb.
  destruct (_ || _); rewrite !append_length; simpl; lia.
Qed.

Lemma artifacts_not_on_the_way path :
  (os.above (index_path path) path = false ∧
   os.with_slashes (index_path path) path = false) ∧
  (os.above (data_path path) path = false ∧
   os.with_slashes (data_path path) path = false).
Proof.
  split; apply longer_not_on_the_way.
  - pose proof (path_join_length path "index.faiss" eq_refl) as H.
    unfold index_path. simpl in H. lia.
  - pose proof (path_join_length path "data.pkl" eq_refl) as H.
    unfold data_path. simpl in H. lia.
Qed.

Lemma write_index_Ok idx p (fs fs' : gmap string os.node) :
  os.write_index idx p fs = Ok fs' →
  fs' = <[p := os.File (os.FaissFile idx)]> fs.
Proof.
  unfold os.write_index. by destruct (fs !! p) as [[|?]|]; intros [= <-].
Qed.

Lemma open_wb_Ok p (fs fs' : gmap string os.node) :
  os.open_wb p fs = Ok fs' → fs' = <[p := os.File os.EmptyFile]> fs.
Proof.
  unfold os.open_wb. by destruct (fs !! p) as [[|?]|]; intros [= <-].
Qed.

(** The four file systems that a [save] that returns goes through. *)
Lemma save_Ok (self : VectorStore) path (fs fs' : gmap string os.node) :
  save self path fs = (Ok (), fs') →
  ∃ fs1 fs2 fs3,
    os.observable (save_steps self path) fs = [fs1; fs2; fs3; fs'] ∧
    (fs1 = fs ∨ fs1 = <[path := os.Dir]> fs) ∧
    fs2 = <[index_path path := os.File (os.FaissFile (index self))]> fs1 ∧
    fs3 = <[data_path path := os.File os.EmptyFile]> fs2 ∧
    fs' = <[data_path path := os.File (os.PickleFile
             {| os.p_chunks := Some (chunks self);
                os.p_metadata := Some (metadata self) |})]> fs3.
Proof.
  unfold save, save_steps. simpl.
  destruct (os.makedirs path fs) as [fs1|] eqn:H1; [| done].
  destruct (os.write_index _ _ fs1) as [fs2|] eqn:H2; [| done].
  destruct (os.open_wb _ fs2) as [fs3|] eqn:H3; [| done].
  simpl. intros [= <-]. exists fs1, fs2, fs3.
  apply makedirs_Ok in H1. apply write_index_Ok in H2.
  apply open_wb_Ok in H3. done.
Qed.

Lemma save_holds_snapshot (self : VectorStore) path
    (fs fs' : gmap string os.node) :
  save self path fs = (Ok (), fs') → holds_snapshot path fs' self.
Proof.
  intros (fs1 & fs2 & fs3 & _ & _ & -> & -> & ->)%save_Ok.
  pose proof (artifact_paths_differ path) as Hne.
  split.
  - rewrite !(lookup_insert_ne _ (data_path path)) by congruence.
    by rewrite lookup_insert_eq.
  - by rewrite lookup_insert_eq.
Qed.


Lemma load_missing (self : VectorStore) path (fs : gmap string os.node) :
  fs !! index_path path = None ∨ fs !! data_path path = None →
  load self path fs = (Ok (), self).
Proof.
  unfold load. intros [Hi | Hd].
  - by rewrite (path_exists_None _ _ Hi).
  - rewrite (path_exists_None _ _ Hd). by rewrite orb_true_r.
Qed.

Lemma load_snapshot (self snapshot : VectorStore) path
    (fs : gmap string os.node) :
  holds_snapshot path fs snapshot →
  load self path fs
    = (Ok (), {| dimension := dimension self; index := index snapshot;
                 chunks := chunks snapshot;
                 metadata := metadata snapshot |}).
Proof.
  intros [Hi Hd]. unfold load.
  rewrite (path_exists_Some _ _ _ Hi), (path_exists_Some _ _ _ Hd).
  unfold os.read_index, os.pickle_load. rewrite Hi, Hd. done.
Qed.
End persistence.

(** ** The claims about the vector store *)

Section store_claims.
Context `{F32 : Float32}.

Lemma add_documents_outcome self chunks' embeddings metadata' :
  (add_documents self chunks' embeddings metadata').2 = self ∨
  (embeddings ≠ [] ∧ fits self embeddings = true ∧
   (add_documents self chunks' embeddings metadata').2
     = extended self chunks' embeddings metadata').
Proof.
  destruct (decide (embeddings = [])) as [-> | Hne]; [by left |].
  destruct (fits self embeddings) eqn:Hfits.
  - right. by rewrite add_documents_accepts.
  - left.
    by destruct (add_documents_rejects self chunks' embeddings metadata')
      as [e ->].
Qed.

(** C1, as amended: the alignment
    [len(chunks) == len(metadata) == index.ntotal] holds for a freshly
    constructed store; [add_documents] preserves it whenever its three
    arguments have equal length, and then the new entries sit at the
    same positions of the three collections, after the old ones, which
    stay where they were; [load] preserves it when an artifact is
    missing and when the two artifacts are the snapshot of an aligned
    store, whose collections it takes over unchanged.  ([search] and
    [save] do not assign to the store: their embeddings return none.) *)
Theorem alignment_invariant :
  (∀ dim, aligned (__init__ dim)) ∧
  (∀ self chunks' embeddings metadata',
     aligned self →
     length chunks' = length embeddings →
     length embeddings = length metadata' →
     aligned (add_documents self chunks' embeddings metadata').2) ∧
  (∀ self chunks' embeddings metadata',
     aligned self → embeddings ≠ [] → fits self embeddings = true →
     length chunks' = length embeddings →
     length embeddings = length metadata' →
     let self' := (add_documents self chunks' embeddings metadata').2 in
     let n := length (chunks self) in
     (∀ i, (i < n)%nat →
        chunks self' !! i = chunks self !! i ∧
        metadata self' !! i = metadata self !! i ∧
        faiss.xb (index self') !! i = faiss.xb (index self) !! i) ∧
     (∀ j, chunks self' !! (n + j)%nat = chunks' !! j ∧
           metadata self' !! (n + j)%nat = metadata' !! j ∧
           faiss.xb (index self') !! (n + j)%nat
             = map astype_float32 <$> embeddings !! j)) ∧
  (∀ self path (fs : gmap string os.node),
     aligned self →
     fs !! index_path path = None ∨ fs !! data_path path = None →
     aligned (load self path fs).2) ∧
  (∀ self snapshot path (fs : gmap string os.node),
     aligned snapshot → holds_snapshot path fs snapshot →
     let self' := (load self path fs).2 in
     aligned self' ∧ index self' = index snapshot ∧
     chunks self' = chunks snapshot ∧
     metadata self' = metadata snapshot).
Proof.
  split_and!.
  - done.
  - intros self c e m Hal Hce Hem.
    destruct (add_documents_outcome self c e m) as [-> | (_ & _ & ->)];
      [done | by apply extended_aligned].
  - intros self c e m [Hcm Hmi] Hne Hfits Hce Hem.
    rewrite add_documents_accepts by done. simpl.
    unfold faiss.ntotal in Hmi. split.
    + intros i Hi. by rewrite !lookup_app_l by lia.
    + intros j. rewrite !lookup_app_r by lia.
      replace (length (chunks self) + j - length (chunks self))%nat
        with j by lia.
      replace (length (chunks self) + j - length (metadata self))%nat
        with j by lia.
      replace (length (chunks self) + j
               - length (faiss.xb (index self)))%nat with j by lia.
      split_and!; [done | done |].
      change (map (map astype_float32) e)
        with (map astype_float32 <$> e).
      by rewrite list_lookup_fmap.
  - intros self path fs Hal Hmiss. by rewrite load_missing.
  - intros self snapshot path fs Hal Hsnap.
    by rewrite (load_snapshot _ _ _ _ Hsnap).
Qed.

(** C2, as amended: a call of [add_documents] whose three arguments do
    not have equal length is not rejected for that.  With no embeddings
    it returns and changes nothing; with embeddings that all have the
    dimension of the index it returns, and each collection has grown by
    the whole of its own argument (nothing is truncated, padded or
    left out); otherwise it raises and changes nothing. *)
Theorem add_documents_mismatched_lengths self chunks' embeddings metadata' :
  length chunks' ≠ length embeddings ∨
    length embeddings ≠ length metadata' →
  (embeddings = [] →
     add_documents self chunks' embeddings metadata' = (Ok (), self)) ∧
  (embeddings ≠ [] → fits self embeddings = true →
     add_documents self chunks' embeddings metadata'
       = (Ok (), extended self chunks' embeddings metadata')) ∧
  (embeddings ≠ [] → fits self embeddings = false →
     ∃ e, add_documents self chunks' embeddings metadata'
            = (Raise e, self)).
Proof.
  intros _. split_and!.
  - by intros ->.
  - apply add_documents_accepts.
  - apply add_documents_rejects.
Qed.

(** C3: a [save] that returns, followed by a [load] of the same path
    into a fresh store of the same dimension, gives a store with the
    same chunk list and metadata list, in order, and the same answer to
    every [search]. *)
Theorem save_load_roundtrip (self : VectorStore) path
    (fs fs' : gmap string os.node) query_embedding k :
  save self path fs = (Ok (), fs') →
  ∃ self',
    load (__init__ (dimension self)) path fs' = (Ok (), self') ∧
    chunks self' = chunks self ∧
    metadata self' = metadata self ∧
    search self' query_embedding k = search self query_embedding k.
Proof.
  intros Hsnap%save_holds_snapshot. exists self.
  rewrite (load_snapshot _ _ _ _ Hsnap). by destruct self.
Qed.


(** C6: when either artifact is missing under [path], [load] returns
    without raising and leaves the store exactly as it was. *)
Theorem load_missing_artifact (self : VectorStore) path
    (fs : gmap string os.node) :
  os.path_exists (index_path path) fs = false ∨
    os.path_exists (data_path path) fs = false →
  load self path fs = (Ok (), self).
Proof.
  unfold load. intros [-> | ->]; [done | by rewrite orb_true_r].
Qed.

(** C7, as amended: a call of [add_documents] in which some vector's
    length differs from the dimension of the store's index raises and
    leaves the store as it was: the vector is neither truncated nor
    padded. *)
Theorem add_documents_wrong_dimension self chunks' embeddings metadata' v :
  v ∈ embeddings →
  Z.of_nat (length v) ≠ faiss.d (index self) →
  ∃ e, add_documents self chunks' embeddings metadata' = (Raise e, self).
Proof.
  intros Hv Hne. apply add_documents_rejects.
  - intros ->. by apply elem_of_nil in Hv.
  - by eapply fits_false.
Qed.

(** C10: [add_documents] with no embeddings returns without raising
    and leaves the whole store as it was, whatever [chunks] and
    [metadata] it was given. *)
Theorem add_documents_no_embeddings (self : VectorStore) chunks' metadata' :
  add_documents self chunks' [] metadata' = (Ok (), self).
Proof. reflexivity. Qed.

(** X2: a fresh store to which one chunk has been added answers a
    query for the very vector added, with any [k >= 1], by that chunk
    alone, with its metadata and the distance of the vector to itself. *)
Theorem search_only_entry (dim : Z) (chunk : string)
    (v : list pyfloat) (m : Dict) (k : Z) :
  Z.of_nat (length v) = dim → 1 ≤ k →
  search (add_documents (__init__ dim) [chunk] [v] [m]).2 v k
    = Ok [(chunk, m,
           float (faiss.fvec_L2sqr (map astype_float32 v)
                    (map astype_float32 v)))].
Proof.
  intros Hdim Hk.
  assert (fits (__init__ dim) [v] = true) as Hfits.
  { unfold fits. simpl. apply andb_true_iff. split; [| done].
    by apply Z.eqb_eq. }
  rewrite add_documents_accepts by done.
  unfold search, faiss.search. simpl.
  apply Z.eqb_eq in Hdim. rewrite Hdim. simpl.
  rewrite Z.min_r by lia. simpl. reflexivity.
Qed.

(** The dimension of the index and the declared one agree for a store
    as constructed, and [add_documents] changes neither. *)
Lemma init_dimension dim :
  faiss.d (index (__init__ dim)) = dimension (__init__ dim).
Proof. reflexivity. Qed.

Lemma add_documents_dimension self chunks' embeddings metadata' :
  let self' := (add_documents self chunks' embeddings metadata').2 in
  faiss.d (index self') = faiss.d (index self) ∧
  dimension self' = dimension self.
Proof.
  simpl.
  by destruct (add_documents_outcome self chunks' embeddings metadata')
    as [-> | (_ & _ & ->)].
Qed.
End store_claims.

(** ** The cached store of [retrieve.py] *)

Section retrieve_properties.
Context `{F32 : Float32}.
Variable base_dir : string.

(** X1: once a call has cached a store, every later call returns the
    same reference and leaves the process as it is, whatever the
    organization asked for and whatever is on disk. *)
Lemma get_vector_store_cached org_name org_name'
    (fs fs' : gmap string os.node) (p : process) :
  let first := get_vector_store base_dir org_name fs p in
  get_vector_store base_dir org_name' fs' first.2 = (first.1, first.2).
Proof.
  simpl. unfold get_vector_store.
  destruct (_vector_store p) as [ref|] eqn:Hp; simpl; by rewrite ?Hp.
Qed.
End retrieve_properties.

(** * Concrete runs *)

#[local] Existing Instance exact_ints.

Example search_scenario :
  search kb_store [9; 1; 0] 1
    = Ok [("A office hours 9-5", meta "faq.txt" 0, 2)].
Proof. vm_compute. reflexivity. Qed.

Example save_kb : save kb_store "kb" ∅ = (Ok (), fs_kb).
Proof. vm_compute. reflexivity. Qed.

(** *** C1 *)

(** An accepted [add_documents] with two chunks, one vector and one
    metadata record leaves the three collections with 2, 1 and 1
    entries. *)
Lemma alignment_broken_by_add :
  aligned (__init__ 1) ∧
  add_documents (__init__ 1) ["a"; "b"] [[0]] [meta "f.txt" 0]
    = (Ok (), extended (__init__ 1) ["a"; "b"] [[0]] [meta "f.txt" 0]) ∧
  ¬ aligned
      (add_documents (__init__ 1) ["a"; "b"] [[0]] [meta "f.txt" 0]).2.
Proof.
  split_and!; [done | done |].
  intros [Hcm _]. vm_compute in Hcm. discriminate.
Qed.

Lemma alignment_invariant_witness :
  aligned (add_documents (__init__ 1) ["a"] [[0]] [meta "f.txt" 0]).2.
Proof.
  apply (proj1 (proj2 (alignment_invariant (F32 := exact_ints)))); [done | done | done].
Defined.

(** *** C2 *)

(** Two calls with arguments of unequal length that return: one with no
    embeddings, one with fewer embeddings than chunks. *)
Lemma mismatched_add_returns :
  (length ["a"] ≠ length ([] : list (list Z)) ∧
   add_documents (__init__ 1) ["a"] [] [meta "f.txt" 0]
     = (Ok (), __init__ 1)) ∧
  (length ["a"; "b"] ≠ length [[0]] ∧
   (add_documents (__init__ 1) ["a"; "b"] [[0]] [meta "f.txt" 0]).1
     = Ok ()).
Proof. split_and!; done. Qed.

Lemma add_documents_mismatched_lengths_witness :
  add_documents (__init__ 1) ["a"; "b"] [[0]] [meta "f.txt" 0]
    = (Ok (), extended (__init__ 1) ["a"; "b"] [[0]] [meta "f.txt" 0]).
Proof.
  apply (add_documents_mismatched_lengths (F32 := exact_ints) (__init__ 1) ["a"; "b"] [[0]]
           [meta "f.txt" 0]); [left; simpl; lia | done | done].
Defined.

(** *** C3 *)

Lemma save_load_roundtrip_witness :
  ∃ self',
    load (__init__ 3) "kb" fs_kb = (Ok (), self') ∧
    chunks self' = chunks kb_store ∧
    metadata self' = metadata kb_store ∧
    search self' [9; 1; 0] 1 = search kb_store [9; 1; 0] 1.
Proof.
  apply (save_load_roundtrip (F32 := exact_ints) kb_store "kb" ∅ fs_kb [9; 1; 0] 1).
  vm_compute. reflexivity.
Defined.

(** A regular file on the way to the path: [save] raises at
    [os.makedirs] and writes nothing. *)
Example save_under_a_file :
  let fs : gmap string os.node := {[ "a" := os.File os.OtherFile ]} in
  save new_store "a/b" fs = (Raise NotADirectoryError, fs) ∧
  save new_store "a/" fs = (Raise FileExistsError, fs).
Proof. split; by vm_compute. Qed.


Lemma search_only_entry_witness :
  search (add_documents (__init__ 3) ["A office hours 9-5"] [[10; 0; 0]]
            [meta "faq.txt" 0]).2 [10; 0; 0] 5
    = Ok [("A office hours 9-5", meta "faq.txt" 0, 0)].
Proof.
  apply (search_only_entry (F32 := exact_ints) 3 "A office hours 9-5"
           [10; 0; 0] (meta "faq.txt" 0) 5); [reflexivity | lia].
Defined.

(** *** C4 *)



(** *** C5 *)



(** *** C6 *)

Lemma load_missing_artifact_witness :
  load kb_store "elsewhere" fs_kb = (Ok (), kb_store).
Proof.
  apply (load_missing_artifact (F32 := exact_ints) kb_store "elsewhere" fs_kb).
  left. vm_compute. reflexivity.
Defined.

(** *** C7 *)

(** A store declared with dimension 5 that has loaded the
    three-dimensional snapshot accepts three-dimensional vectors. *)
Lemma reloaded_store_accepts_other_dimension :
  let reloaded := (load (__init__ 5) "kb" fs_kb).2 in
  dimension reloaded = 5 ∧
  Z.of_nat (length [0; 0; 10]) ≠ dimension reloaded ∧
  add_documents reloaded ["C new address"] [[0; 0; 10]] [meta "moved.txt" 0]
    = (Ok (),
       extended reloaded ["C new address"] [[0; 0; 10]]
         [meta "moved.txt" 0]).
Proof. split_and!; by vm_compute. Qed.

Lemma add_documents_wrong_dimension_witness :
  ∃ e, add_documents kb_store ["D"] [[1; 2; 3]; [1; 2]] [meta "g.txt" 0]
         = (Raise e, kb_store).
Proof.
  apply (add_documents_wrong_dimension (F32 := exact_ints) kb_store ["D"] [[1; 2; 3]; [1; 2]]
           [meta "g.txt" 0] [1; 2]).
  - apply list_elem_of_In. simpl. auto.
  - vm_compute. discriminate.
Defined.

(** *** C8 *)

(** Outside the range of the claim: a negative overlap that no float
    can hold. *)
Lemma chunk_text_overflows :
  - 2 ^ 1024 < 1 ∧ chunk_text "a" 1 (- 2 ^ 1024) = Raise OverflowError.
Proof. split; by vm_compute. Qed.

Lemma chunk_text_reconstructs_witness :
  ∃ groups : list (nat * list string),
    chunk_text "aa bb  cc dddd e f" 6 3
      = Ok (map (λ g, join " " g.2) groups) ∧
    Forall (λ g, g.2 ≠ [] ∧ split (join " " g.2) = g.2 ∧
                 ∃ a b, split "aa bb  cc dddd e f" = a ++ g.2 ++ b) groups ∧
    overlapping [] groups ∧
    dedup groups = split "aa bb  cc dddd e f" ∧
    ("aa bb  cc dddd e f" = "" → groups = []).
Proof.
  apply (chunk_text_reconstructs "aa bb  cc dddd e f" 6 3).
  - lia.
  - by vm_compute.
Defined.

Example chunk_text_run :
  chunk_text "aa bb  cc dddd e f" 6 3
    = Ok ["aa bb"; "bb cc"; "cc dddd"; "e f"].
Proof. vm_compute. reflexivity. Qed.

(** The quotient is taken in binary64: [18 / (18 / 7)] is a little
    less than 7. *)
Example overlap_words_rounding : overlap_words_of 18 18 7 = Ok 6.
Proof. vm_compute. reflexivity. Qed.

(** *** C9 *)

(** C9: in one process, the call for ["org_b"] that follows a call for
    ["org_a"] returns the reference the first call returned, and the
    store behind it holds the chunks of ["org_a"], not those that are
    on disk for ["org_b"]. *)
Theorem get_vector_store_not_per_org :
  let first := get_vector_store "/srv" "org_a" fs_two start in
  let second := get_vector_store "/srv" "org_b" fs_two first.2 in
  second.1 = first.1 ∧
  chunks <$> heap second.2 !! second.1 = Some ["A opening hours"] ∧
  chunks (load (__init__ 1536) (store_path "/srv" "org_b") fs_two).2
    = ["B refund policy"].
Proof. split_and!; by vm_compute. Qed.

(** * More properties of the vector store *)

Section store_more.
Context `{F32 : Float32}.

(** X4: whatever [add_documents] is given and however it ends, the
    entries the store already had stay where they were: the old chunks,
    metadata and vectors are the leading part of the new ones, and both
    dimensions are unchanged. *)
Theorem add_documents_append_only (self : VectorStore)
    (chunks' : list string) (embeddings : list (list pyfloat))
    (metadata' : list Dict) :
  let self' := (add_documents self chunks' embeddings metadata').2 in
  chunks self `prefix_of` chunks self' ∧
  metadata self `prefix_of` metadata self' ∧
  faiss.xb (index self) `prefix_of` faiss.xb (index self') ∧
  faiss.d (index self') = faiss.d (index self) ∧
  dimension self' = dimension self.
Proof.
  simpl.
  destruct (add_documents_outcome self chunks' embeddings metadata')
    as [-> | (_ & _ & ->)]; [done |].
  simpl. split_and!; try done; by apply prefix_app_r.
Qed.

Lemma fits_app (self : VectorStore) e1 e2 :
  fits self (e1 ++ e2) = fits self e1 && fits self e2.
Proof. unfold fits. apply forallb_app. Qed.

(** X5: two accepted calls of [add_documents] in a row leave the store
    as one call with the concatenated arguments does. *)
Theorem add_documents_twice (self : VectorStore)
    (c1 c2 : list string) (e1 e2 : list (list pyfloat)) (m1 m2 : list Dict) :
  e1 ≠ [] → e2 ≠ [] →
  fits self e1 = true → fits self e2 = true →
  add_documents (add_documents self c1 e1 m1).2 c2 e2 m2
    = add_documents self (c1 ++ c2) (e1 ++ e2) (m1 ++ m2).
Proof.
  intros Hne1 Hne2 Hf1 Hf2.
  rewrite (add_documents_accepts self c1 e1 m1) by done. simpl.
  rewrite (add_documents_accepts _ c2 e2 m2) by done.
  rewrite (add_documents_accepts self (c1 ++ c2) (e1 ++ e2) (m1 ++ m2)).
  - unfold extended. simpl. by rewrite map_app, !app_assoc.
  - by destruct e1.
  - by rewrite fits_app, Hf1, Hf2.
Qed.

Lemma getitem_elem {A} (l : list A) (i : Z) (x : A) :
  getitem l i = Ok x → x ∈ l.
Proof.
  unfold getitem. destruct (_ && _); [| done].
  destruct (l !! _) eqn:Hl; [| done].
  intros [= <-]. by eapply list_elem_of_lookup_2.
Qed.

Lemma getitem_raises {A} (l : list A) (i : Z) (e : exn) :
  getitem l i = Raise e → e = IndexError.
Proof.
  unfold getitem. destruct (_ && _); [| by intros [= <-]].
  destruct (l !! _); [done | by intros [= <-]].
Qed.

Lemma results_of_Ok (self : VectorStore) hits results :
  results_of self hits = Ok results →
  (length results ≤ length hits)%nat ∧
  Forall (λ r, r.1.1 ∈ chunks self ∧ r.1.2 ∈ metadata self) results.
Proof.
  revert results. induction hits as [|[dist idx] hits IH]; intros results.
  - intros [= <-]. by split; [| constructor].
  - cbn [results_of]. destruct (idx <? _).
    + destruct (getitem (chunks self) idx) as [c|] eqn:Hc; [| done].
      destruct (getitem (metadata self) idx) as [m|] eqn:Hm; [| done].
      destruct (results_of self hits) as [rs|]; [| done].
      simpl. intros [= <-]. destruct (IH rs eq_refl) as [Hlen Hall].
      split; [simpl; lia |].
      constructor; [| done]. simpl.
      split; by eapply getitem_elem.
    + intros Hr. destruct (IH _ Hr) as [Hlen Hall]. split; [simpl; lia | done].
Qed.

Lemma results_of_Raise (self : VectorStore) hits e :
  results_of self hits = Raise e → e = IndexError.
Proof.
  induction hits as [|[dist idx] hits IH]; [done |].
  cbn [results_of]. destruct (idx <? _); [| done].
  destruct (getitem (chunks self) idx) as [c|] eqn:Hc;
    [| intros [= <-]; by eapply getitem_raises].
  destruct (getitem (metadata self) idx) as [m|] eqn:Hm;
    [| intros [= <-]; by eapply getitem_raises].
  destruct (results_of self hits) as [rs|]; [done |].
  simpl. intros [= <-]. by apply IH.
Qed.

Lemma faiss_search_length (idx : faiss.IndexFlatL2) x k hits :
  faiss.search idx x k = Ok hits → length hits = Z.to_nat k.
Proof.
  unfold faiss.search. destruct (negb _); [done |].
  destruct (negb _); [done |]. intros [= <-].
  rewrite length_app, length_take, length_replicate,
    (Permutation_length (rank_perm _)).
  unfold faiss.all_hits, faiss.ntotal. rewrite length_imap. lia.
Qed.

(** X6: on any store, aligned or not, a [search] that returns gives at
    most [min(k, len(chunks))] triples, and every chunk and every
    metadata record in them is one the store holds. *)
Theorem search_bounded (self : VectorStore)
    (query_embedding : list pyfloat) (k : Z) results :
  search self query_embedding k = Ok results →
  (length results
     ≤ Z.to_nat (Z.min k (Z.of_nat (length (chunks self)))))%nat ∧
  Forall (λ r, r.1.1 ∈ chunks self ∧ r.1.2 ∈ metadata self) results.
Proof.
  unfold search.
  set (n := Z.min k (Z.of_nat (length (chunks self)))).
  destruct (chunks self) as [|c cs] eqn:Hc.
  - intros [= <-]. split; [simpl; lia | constructor].
  - destruct (faiss.search _ _ n) as [hits|] eqn:Hs; [| done].
    unfold mbind, result_bind. intros Hr.
    apply results_of_Ok in Hr as [Hlen Hall].
    apply faiss_search_length in Hs. rewrite Hc in Hall.
    split; [lia | done].
Qed.

(** X7: on a store that holds a chunk, [search] raises
    [AssertionError] exactly when the query has not the dimension of
    the index or [k] is not positive. *)
Theorem search_assertion (self : VectorStore)
    (query_embedding : list pyfloat) (k : Z) :
  chunks self ≠ [] →
  search self query_embedding k = Raise AssertionError ↔
  Z.of_nat (length query_embedding) ≠ faiss.d (index self) ∨ k ≤ 0.
Proof.
  intros Hne. unfold search. destruct (chunks self) as [|c cs] eqn:Hc; [done |].
  rewrite <- Hc.
  assert (0 < Z.of_nat (length (chunks self))) as Hn by (rewrite Hc; simpl; lia).
  unfold faiss.search. simpl.
  destruct (Z.of_nat (length query_embedding) =? faiss.d (index self)) eqn:Hd;
    simpl.
  - apply Z.eqb_eq in Hd.
    destruct (0 <? Z.min k (Z.of_nat (length (chunks self)))) eqn:Hk; simpl.
    + apply Z.ltb_lt in Hk. split; [| lia].
      intros Hr%results_of_Raise. done.
    + apply Z.ltb_ge in Hk. split; [right; lia | done].
  - apply Z.eqb_neq in Hd. split; [by left | done].
Qed.
End store_more.

(** * More properties of [save] and [load] *)

Section persistence_more.
Context `{F32 : Float32}.

Lemma makedirs_Dir p (fs fs' : gmap string os.node) :
  os.makedirs p fs = Ok fs' → fs' !! p = Some os.Dir.
Proof.
  unfold os.makedirs. destruct (bool_decide _); [done |].
  destruct (os.some_file _ fs); [done |].
  destruct (os.some_file _ fs); [done |].
  destruct (fs !! p) as [[|?]|] eqn:Hp; intros [= <-]; [done |].
  by rewrite lookup_insert_eq.
Qed.

(** X8: a reader that calls [load] while a [save] over an older
    snapshot is under way gets a store that was never saved: after the
    index artifact is written, the new index with the old chunks and
    metadata; while the data artifact is truncated, [load] raises after
    it has already replaced the reader's index, so the reader is left
    with the new index beside its own chunks and metadata. *)
Theorem load_during_save (reader new old : VectorStore) path
    (fs fs' : gmap string os.node) :
  holds_snapshot path fs old →
  save new path fs = (Ok (), fs') →
  ∃ fs1 fs2 fs3,
    os.observable (save_steps new path) fs = [fs1; fs2; fs3; fs'] ∧
    load reader path fs2
      = (Ok (), {| dimension := dimension reader; index := index new;
                   chunks := chunks old; metadata := metadata old |}) ∧
    ∃ e, load reader path fs3
      = (Raise e, {| dimension := dimension reader; index := index new;
                     chunks := chunks reader;
                     metadata := metadata reader |}).
Proof.
  intros [Hi Hd] Hsave.
  apply save_Ok in Hsave as (fs1 & fs2 & fs3 & Hobs & H1 & -> & -> & ->).
  pose proof (artifact_paths_differ path) as Hne.
  pose proof (data_path_not_dir path) as Hnd.
  assert (fs1 !! data_path path = fs !! data_path path) as Hd1.
  { destruct H1 as [-> | ->]; [done |]. by rewrite lookup_insert_ne. }
  eexists fs1, _, _. split; [exact Hobs |]. split.
  - apply (load_snapshot reader
      {| dimension := dimension old; index := index new;
         chunks := chunks old; metadata := metadata old |}).
    split; simpl.
    + by rewrite lookup_insert_eq.
    + rewrite lookup_insert_ne by done. by rewrite Hd1.
  - exists UnpicklingError. unfold load, os.path_exists, os.read_index,
      os.pickle_load.
    rewrite lookup_insert_eq.
    rewrite lookup_insert_ne by congruence. rewrite lookup_insert_eq.
    rewrite !bool_decide_true by done. done.
Qed.

Lemma save_makes_dir (self : VectorStore) path
    (fs fs' : gmap string os.node) :
  save self path fs = (Ok (), fs') → fs' !! path = Some os.Dir.
Proof.
  unfold save, save_steps. simpl.
  destruct (os.makedirs path fs) as [fs1|] eqn:H1; [| done].
  apply makedirs_Dir in H1.
  destruct (os.write_index _ _ fs1) as [fs2|] eqn:H2; [| done].
  apply write_index_Ok in H2 as ->.
  destruct (os.open_wb _ _) as [fs3|] eqn:H3; [| done].
  apply open_wb_Ok in H3 as ->. unfold os.pickle_dump. intros [= <-].
  pose proof (index_path_not_dir path). pose proof (data_path_not_dir path).
  by rewrite !lookup_insert_ne.
Qed.

(** No regular file is on the way to the path of a [save] that has
    returned: the two artifacts lie under it. *)
Lemma save_clear (self : VectorStore) path (fs fs' : gmap string os.node) :
  save self path fs = (Ok (), fs') →
  path ≠ "" ∧
  os.some_file (λ a, os.above a path) fs' = false ∧
  os.some_file (λ a, os.with_slashes a path) fs' = false.
Proof.
  unfold save, save_steps. simpl.
  destruct (os.makedirs path fs) as [fs1|] eqn:H1; [| done].
  pose proof (makedirs_clear _ _ _ H1) as (Hp & Hab & Hsl).
  apply makedirs_Ok in H1.
  destruct (os.write_index _ _ fs1) as [fs2|] eqn:H2; [| done].
  apply write_index_Ok in H2 as ->.
  destruct (os.open_wb _ _) as [fs3|] eqn:H3; [| done].
  apply open_wb_Ok in H3 as ->. unfold os.pickle_dump. intros [= <-].
  destruct (artifacts_not_on_the_way path) as [[Hia His] [Hda Hds]].
  split; [done |].
  split; repeat apply some_file_insert; simpl;
    rewrite ?Hia, ?His, ?Hda, ?Hds; try done;
    destruct H1 as [-> | ->]; try done; by apply some_file_insert.
Qed.

(** X9: a [save] that has returned can be repeated: on the file system
    it left, the same [save] returns again and changes nothing. *)
Theorem save_twice (self : VectorStore) path
    (fs fs' : gmap string os.node) :
  save self path fs = (Ok (), fs') → save self path fs' = (Ok (), fs').
Proof.
  intros Hsave. pose proof (save_holds_snapshot _ _ _ _ Hsave) as [Hi Hd].
  pose proof (save_makes_dir _ _ _ _ Hsave) as Hdir.
  pose proof (save_clear _ _ _ _ Hsave) as (Hp & Hab & Hsl).
  unfold save, save_steps. simpl. unfold os.makedirs.
  rewrite bool_decide_false, Hab, Hsl by done.
  rewrite Hdir. unfold os.write_index. rewrite Hi.
  rewrite (insert_id fs' _ _ Hi).
  unfold os.open_wb. rewrite Hd. unfold os.pickle_dump.
  rewrite insert_insert_eq. by rewrite (insert_id fs' _ _ Hd).
Qed.
End persistence_more.

(** * retrieve.py: the query path *)

Section retrieve_properties.
Context `{Env : Environment}.
Variable base_dir : string.

Lemma get_vector_store_hit org_name (fs : gmap string os.node) p ref :
  _vector_store p = Some ref →
  get_vector_store base_dir org_name fs p = (ref, p).
Proof. unfold get_vector_store. by intros ->. Qed.

Lemma search_raises (self : VectorStore) (q : list pyfloat) (k : Z) :
  chunks self ≠ [] →
  Z.of_nat (length q) ≠ faiss.d (index self) ∨ k ≤ 0 →
  search self q k = Raise AssertionError.
Proof.
  intros Hne Hbad. unfold search.
  destruct (chunks self) as [|c cs] eqn:Hc; [done |].
  unfold faiss.search. simpl fst.
  destruct (Z.of_nat (length q) =? faiss.d (index self)) eqn:Hd; [| done].
  apply Z.eqb_eq in Hd. destruct Hbad as [? | Hk]; [done |].
  simpl negb at 1. cbv iota.
  replace (0 <? Z.min k (Z.of_nat (length (c :: cs)))) with false; [done |].
  symmetry. apply Z.ltb_ge. lia.
Qed.


(** X10: in a process that starts where the organization has no
    complete snapshot on disk, the first retrieval returns no chunk and
    makes no call to the embedding service; and so does every later
    retrieval of that process, for any organization and whatever has
    been ingested on disk since: the empty store stays cached. *)
Theorem retrieve_stays_empty query k org_name (fs : gmap string os.node) w
    query' k' org_name' (fs' : gmap string os.node) w' :
  os.path_exists (store_path base_dir org_name) fs = false ∨
  fs !! index_path (store_path base_dir org_name) = None ∨
  fs !! data_path (store_path base_dir org_name) = None →
  ∃ p,
    retrieve_relevant_chunks base_dir query k org_name fs start w
      = ([], p, w) ∧
    retrieve_relevant_chunks base_dir query' k' org_name' fs' p w'
      = ([], p, w').
Proof.
  intros Hmiss.
  exists {| heap := [__init__ 1536]; _vector_store := Some 0%nat |}.
  split; [| done].
  unfold retrieve_relevant_chunks, get_vector_store. simpl.
  destruct Hmiss as [-> | Hmiss]; [done |].
  rewrite load_missing by (destruct Hmiss; auto).
  by destruct (os.path_exists _ _).
Qed.

(** X11: whatever goes wrong after the store is found is swallowed: on
    a store that holds chunks, when the embedding service raises, or
    returns an empty vector or one whose length is not the dimension of
    the index, or when [k] is not positive, the retrieval returns the
    empty list, as it does when nothing is relevant. *)
Theorem retrieve_swallows query k org_name (fs : gmap string os.node)
    p ref (s : VectorStore) w r w' :
  _vector_store p = Some ref → heap p !! ref = Some s →
  chunks s ≠ [] →
  embeddings_create w query = (r, w') →
  match r with
  | Raise _ => True
  | Ok q => q = [] ∨ Z.of_nat (length q) ≠ faiss.d (index s) ∨ k ≤ 0
  end →
  retrieve_relevant_chunks base_dir query k org_name fs p w = ([], p, w').
Proof.
  intros Hp Hs Hne Hq Hbad. unfold retrieve_relevant_chunks.
  rewrite (get_vector_store_hit _ _ _ _ Hp), Hs.
  destruct (chunks s) as [|c cs] eqn:Hc; [done |].
  unfold create_query_embedding. rewrite Hq.
  destruct r as [q | e]; [| done].
  destruct q as [|x q]; [done |].
  destruct Hbad as [? | Hbad]; [done |].
  rewrite search_raises; [done | by rewrite Hc | done].
Qed.

End retrieve_properties.

(** * ingest.py: embeddings and ingestion *)

Section chunker_more.

Lemma split_blank (text : string) : blank text = true → split text = [].
Proof.
  unfold split. induction text as [|c text IH]; [done |]. simpl.
  intros [Hc Ht]%andb_true_iff. rewrite Hc. by apply IH.
Qed.

Lemma chunk_text_blank (text : string) (chunk_size overlap : Z) :
  blank text = true → chunk_text text chunk_size overlap = Ok [].
Proof. intros Hb. unfold chunk_text. by rewrite split_blank. Qed.

Lemma chunk_text_returns (text : string) (chunk_size overlap : Z) :
  Z.abs overlap < float_int_bound →
  ∃ chunks, chunk_text text chunk_size overlap = Ok chunks.
Proof.
  intros Hb.
  destruct (chunk_loop_inv chunk_size overlap (split text) Hb
              [] [] 0 [] [] 0%nat)
    as (chunks & cur & groups & carried & Hloop & _).
  { repeat split; try done. by exists []. }
  unfold chunk_text. rewrite Hloop. simpl. by eexists.
Qed.

Lemma default_overlap_converts : Z.abs 50 < float_int_bound.
Proof. by apply Z.ltb_lt. Qed.
End chunker_more.

Section ingest_properties.
Context `{Env : Environment}.

Lemma embed_each_length texts w embeddings w' :
  embed_each texts w = (Ok embeddings, w') →
  length embeddings = length texts.
Proof.
  revert w embeddings.
  induction texts as [|t texts IH]; intros w es; simpl.
  - by intros [= <- _].
  - destruct (embeddings_create w t) as [[e1|?] w1]; [| done].
    destruct (embed_each texts w1) as [[es1|?] w2] eqn:Hrest; [| done].
    intros [= <- <-]. simpl. f_equal. by eapply IH.
Qed.

(** X13: [create_embeddings] gives all or nothing: one vector per text,
    or the empty list; never the vectors of some of the texts only. *)
Theorem create_embeddings_all_or_nothing texts w :
  (create_embeddings texts w).1 = [] ∨
  length (create_embeddings texts w).1 = length texts.
Proof.
  unfold create_embeddings.
  destruct (embed_each texts w) as [[es|?] w'] eqn:He; [| by left].
  right. by eapply embed_each_length.
Qed.

Lemma embed_each_stops before text rest w embeddings w1 e w2 :
  embed_each before w = (Ok embeddings, w1) →
  embeddings_create w1 text = (Raise e, w2) →
  embed_each (before ++ text :: rest) w = (Raise e, w2).
Proof.
  revert w embeddings. induction before as [|t before IH];
    intros w es; simpl.
  - intros [= _ <-] ->. done.
  - destruct (embeddings_create w t) as [[e1|?] w3]; [| done].
    destruct (embed_each before w3) as [[es1|?] w4] eqn:Hrest; [| done].
    intros [= _ <-] Hfail. by rewrite (IH _ _ Hrest Hfail).
Qed.

(** X14: the first call of the embedding service that raises ends
    [create_embeddings]: the vectors obtained before it are dropped, the
    remaining texts are not sent, and the result is the empty list. *)
Theorem create_embeddings_stops before text rest w embeddings w1 e w2 :
  embed_each before w = (Ok embeddings, w1) →
  embeddings_create w1 text = (Raise e, w2) →
  create_embeddings (before ++ text :: rest) w = ([], w2).
Proof.
  intros Hbefore Hfail. unfold create_embeddings.
  by rewrite (embed_each_stops _ _ _ _ _ _ _ _ Hbefore Hfail).
Qed.

Lemma imap_labels {A B} (f : nat → B) (l : list A) :
  Forall2 (λ x y, ∃ i : nat, l !! i = Some x ∧ y = f i) l
    (imap (λ i _, f i) l).
Proof.
  apply Forall2_lookup. intros i. rewrite list_lookup_imap.
  destruct (l !! i) as [x|] eqn:Hi; constructor. by exists i.
Qed.

Lemma ingest_files_labelled files all_chunks all_metadata chunks' metadata' :
  ingest_files files all_chunks all_metadata = Ok (chunks', metadata') →
  ∃ cs ms,
    chunks' = all_chunks ++ cs ∧ metadata' = all_metadata ++ ms ∧
    Forall2 (λ c m, ∃ file text file_chunks (i : nat),
               file ∈ files ∧
               extract_text_from_file file = Ok text ∧
               chunk_text text 500 50 = Ok file_chunks ∧
               file_chunks !! i = Some c ∧
               m = meta (doc_name file) (Z.of_nat i)) cs ms.
Proof.
  revert all_chunks all_metadata.
  induction files as [|file files IH]; intros all_chunks all_metadata.
  - intros [= <- <-]. exists [], []. by rewrite !app_nil_r.
  - cbn [ingest_files].
    destruct (extract_text_from_file file) as [text|] eqn:Ht; [| done].
    unfold mbind at 1, result_bind at 1.
    assert (∀ cs ms,
      Forall2 (λ c m, ∃ file0 text0 file_chunks (i : nat),
                 file0 ∈ files ∧
                 extract_text_from_file file0 = Ok text0 ∧
                 chunk_text text0 500 50 = Ok file_chunks ∧
                 file_chunks !! i = Some c ∧
                 m = meta (doc_name file0) (Z.of_nat i)) cs ms →
      Forall2 (λ c m, ∃ file0 text0 file_chunks (i : nat),
                 file0 ∈ file :: files ∧
                 extract_text_from_file file0 = Ok text0 ∧
                 chunk_text text0 500 50 = Ok file_chunks ∧
                 file_chunks !! i = Some c ∧
                 m = meta (doc_name file0) (Z.of_nat i)) cs ms) as Hmono.
    { intros cs ms Hall. eapply Forall2_impl; [exact Hall |].
      intros c m (f & t & fc & i & Hf & ?). exists f, t, fc, i.
      split; [by right | done]. }
    destruct (blank text).
    + intros (cs & ms & -> & -> & Hall)%IH. exists cs, ms. auto.
    + destruct (chunk_text text 500 50) as [file_chunks|] eqn:Hc; [| done].
      unfold mbind, result_bind.
      intros (cs & ms & -> & -> & Hall)%IH.
      exists (file_chunks ++ cs),
        (imap (λ i _, meta (doc_name file) (Z.of_nat i)) file_chunks ++ ms).
      rewrite !app_assoc. split_and!; [done | done |].
      apply Forall2_app; [| by apply Hmono].
      eapply Forall2_impl;
        [apply (imap_labels (λ i, meta (doc_name file) (Z.of_nat i))) |].
      intros c m (i & Hi & ->). exists file, text, file_chunks, i.
      split_and!; try done. by left.
Qed.

Lemma ingest_documents_Ok path (tree : gmap string (list document)) w r w' :
  ingest_documents path tree w = (Ok r, w') →
  (tree !! path = None ∧ w' = w ∧
   r = {| i_chunks := []; i_embeddings := []; i_metadata := [] |}) ∨
  ∃ entries,
    tree !! path = Some entries ∧
    ingest_files (glob ".txt" entries ++ glob ".pdf" entries) [] []
      = Ok (i_chunks r, i_metadata r) ∧
    create_embeddings (i_chunks r) w = (i_embeddings r, w').
Proof.
  unfold ingest_documents.
  destruct (tree !! path) as [entries|]; [| intros [= <- <-]; by left].
  cbv zeta.
  destruct (ingest_files _ [] []) as [[cs ms]|] eqn:Hfiles; [| done].
  destruct (create_embeddings cs w) as [es w1] eqn:He.
  intros [= <- <-]. right. by exists entries.
Qed.

Lemma ingest_documents_lengths path (tree : gmap string (list document))
    w r w' :
  ingest_documents path tree w = (Ok r, w') →
  length (i_chunks r) = length (i_metadata r) ∧
  (i_embeddings r = [] ∨ length (i_embeddings r) = length (i_chunks r)).
Proof.
  intros [(_ & _ & ->) | (entries & _ & Hfiles & He)]%ingest_documents_Ok;
    [by split; [| left] |].
  apply ingest_files_labelled in Hfiles as (cs & ms & Hcs & Hms & Hall).
  simpl in Hcs, Hms. rewrite Hcs, Hms. split; [by eapply Forall2_length |].
  rewrite <- Hcs. revert He. unfold create_embeddings.
  destruct (embed_each (i_chunks r) w) as [[es|?] w1] eqn:Hes;
    intros [= <- _]; [| by left].
  right. by eapply embed_each_length.
Qed.
End ingest_properties.

Section ingestion.
Context `{Env : Environment}.

Lemma init_aligned dim : aligned (__init__ dim).
Proof. by split. Qed.

Lemma add_ingested_aligned dim cs (es : list (list pyfloat)) (ms : list Dict) :
  length cs = length ms →
  es = [] ∨ length es = length cs →
  aligned (add_documents (__init__ dim) cs es ms).2.
Proof.
  intros Hcm Hes.
  destruct (add_documents_outcome (__init__ dim) cs es ms)
    as [-> | (Hne & _ & ->)]; [apply init_aligned |].
  destruct Hes as [-> | Hes]; [done |].
  apply extended_aligned; [apply init_aligned | done | congruence].
Qed.

(** X15: every chunk that [ingest_documents] returns stands beside the
    metadata record that names the file it comes from and its ordinal
    among the chunks of that file: the file is an entry of the
    directory named [*.txt] or [*.pdf] and the chunk is the [i]-th of
    [chunk_text] on the text extracted from it.  The embeddings are
    either none or one per chunk. *)
Theorem ingest_documents_labelled path (tree : gmap string (list document))
    w r w' :
  ingest_documents path tree w = (Ok r, w') →
  Forall2 (λ c m, ∃ file text file_chunks (i : nat),
             file ∈ default [] (tree !! path) ∧
             (ends_with ".txt" (doc_name file) = true ∨
              ends_with ".pdf" (doc_name file) = true) ∧
             extract_text_from_file file = Ok text ∧
             chunk_text text 500 50 = Ok file_chunks ∧
             file_chunks !! i = Some c ∧
             m = meta (doc_name file) (Z.of_nat i))
    (i_chunks r) (i_metadata r) ∧
  (i_embeddings r = [] ∨ length (i_embeddings r) = length (i_chunks r)).
Proof.
  intros Hr. split; [| by eapply ingest_documents_lengths].
  apply ingest_documents_Ok in Hr
    as [(_ & _ & ->) | (entries & Ht & Hfiles & _)]; [constructor |].
  apply ingest_files_labelled in Hfiles as (cs & ms & -> & -> & Hall).
  simpl. rewrite Ht. simpl.
  eapply Forall2_impl; [exact Hall |].
  intros c m (f & t & fc & i & Hf & Hrest). exists f, t, fc, i.
  unfold glob in Hf.
  apply elem_of_app in Hf as [[? ?]%list_elem_of_filter
                             | [? ?]%list_elem_of_filter]; auto.
Qed.

(** X16: whatever [ingest_documents] returns, adding it to a fresh
    store of any dimension leaves the store aligned: the call adds all
    of it, or nothing. *)
Theorem ingest_then_add_aligned path (tree : gmap string (list document))
    w r w' dim :
  ingest_documents path tree w = (Ok r, w') →
  aligned (add_documents (__init__ dim) (i_chunks r) (i_embeddings r)
             (i_metadata r)).2.
Proof.
  intros [Hcm Hes]%ingest_documents_lengths. by apply add_ingested_aligned.
Qed.

Lemma ingest_files_raises files file e all_chunks all_metadata :
  file ∈ files → extract_text_from_file file = Raise e →
  ∃ e', ingest_files files all_chunks all_metadata = Raise e'.
Proof.
  intros Hf He. revert all_chunks all_metadata.
  induction files as [|g files IH]; intros all_chunks all_metadata;
    [by apply elem_of_nil in Hf |].
  cbn [ingest_files].
  destruct (extract_text_from_file g) as [text|e0] eqn:Hg;
    [| by exists e0].
  apply elem_of_cons in Hf as [-> | Hf]; [congruence |].
  unfold mbind at 1, result_bind at 1.
  destruct (blank text); [by apply IH |].
  destruct (chunk_text text 500 50) as [cs|e1]; [| by exists e1].
  unfold mbind, result_bind. by apply IH.
Qed.

(** X17: one unreadable file among those named [*.txt] or [*.pdf] makes
    [ingest_documents] raise, whatever the other files hold, and
    before any call to the embedding service. *)
Theorem ingest_documents_unreadable path
    (tree : gmap string (list document)) entries file e w :
  tree !! path = Some entries →
  file ∈ entries →
  ends_with ".txt" (doc_name file) = true ∨
    ends_with ".pdf" (doc_name file) = true →
  extract_text_from_file file = Raise e →
  ∃ e', ingest_documents path tree w = (Raise e', w).
Proof.
  intros Ht Hf Hname He. unfold ingest_documents. rewrite Ht. cbv zeta.
  destruct (ingest_files_raises
              (glob ".txt" entries ++ glob ".pdf" entries) file e [] [])
    as [e' ->]; [| done | by exists e'].
  unfold glob. apply elem_of_app.
  destruct Hname; [left | right]; by apply list_elem_of_filter.
Qed.
End ingestion.

Section ingestion_local.
Context `{Env : Environment}.

Lemma ingest_files_local_chunks docs_path files all_chunks all_metadata
    chunks' metadata' all_metadata0 :
  ingest_files files all_chunks all_metadata = Ok (chunks', metadata') →
  (ingest_files_local docs_path files all_chunks all_metadata0).1 = chunks'.
Proof.
  revert all_chunks all_metadata all_metadata0.
  induction files as [|file files IH];
    intros all_chunks all_metadata all_metadata0.
  - by intros [= <- _].
  - cbn [ingest_files ingest_files_local].
    destruct (extract_text_from_file file) as [text|]; [| done].
    unfold mbind at 1, result_bind at 1.
    destruct (blank text) eqn:Hb.
    + rewrite chunk_text_blank by done. simpl. rewrite app_nil_r.
      apply IH.
    + destruct (chunk_text text 500 50) as [cs|]; [| done].
      unfold mbind, result_bind. apply IH.
Qed.

(** X18: when [ingest_documents] returns for a directory,
    [ingest_documents_local] returns the same chunks for it, in the
    same order: a file whose text is blank, which the first skips,
    gives the second no chunk. *)
Theorem ingest_local_same_chunks path model_name
    (tree : gmap string (list document)) w r w' wl :
  ingest_documents path tree w = (Ok r, w') →
  i_chunks (ingest_documents_local path model_name tree wl).1 = i_chunks r.
Proof.
  intros [(Ht & _ & ->) | (entries & Ht & Hfiles & _)]%ingest_documents_Ok;
    unfold ingest_documents_local; rewrite Ht; simpl.
  - by destruct (create_local_embeddings [] model_name wl).
  - pose proof (ingest_files_local_chunks path _ _ _ _ _ [] Hfiles) as Hl.
    destruct (ingest_files_local path _ [] []) as [cs ms]. simpl in Hl.
    subst cs. by destruct (create_local_embeddings _ model_name wl).
Qed.
End ingestion_local.

(** * scripts/ingest_documents.py *)

Section ingest_cli_properties.
Context `{Env : Environment}.
Variable base_dir : string.

Lemma create_embeddings_nil w : create_embeddings [] w = ([], w).
Proof. done. Qed.

Lemma add_documents_Ok (self store : VectorStore) cs
    (es : list (list pyfloat)) (ms : list Dict) :
  add_documents self cs es ms = (Ok (), store) →
  (es = [] ∧ store = self) ∨ (es ≠ [] ∧ store = extended self cs es ms).
Proof.
  destruct (decide (es = [])) as [-> | Hne].
  - intros [= <-]. by left.
  - destruct (fits self es) eqn:Hf.
    + rewrite add_documents_accepts by done. intros [= <-]. by right.
    + by destruct (add_documents_rejects self cs es ms) as [e ->].
Qed.

(** X19: when [main] exits with 0, the snapshot it wrote under the
    organization's store path is that of an aligned store, which a
    fresh process then gets from [get_vector_store]: the store holds
    every ingested chunk with its metadata and vector, or, when the
    embedding service failed, nothing at all -- exit code 0 in both
    cases. *)
Theorem main_then_get_vector_store org docs_path_arg
    (tree : gmap string (list document)) (fs fs' : gmap string os.node)
    w w' :
  main base_dir org docs_path_arg tree fs w = (Ok 0, fs', w') →
  ∃ docs_path r store,
    ingest_documents docs_path tree w = (Ok r, w') ∧
    i_chunks r ≠ [] ∧
    holds_snapshot (store_path base_dir org) fs' store ∧
    aligned store ∧
    get_vector_store base_dir org fs' start
      = (0%nat, {| heap := [store]; _vector_store := Some 0%nat |}) ∧
    ((i_embeddings r = [] ∧ store = __init__ 1536) ∨
     (length (i_embeddings r) = length (i_chunks r) ∧
      chunks store = i_chunks r ∧ metadata store = i_metadata r ∧
      faiss.xb (index store)
        = map (map astype_float32) (i_embeddings r))).
Proof.
  unfold main.
  set (docs_path := match docs_path_arg with
                    | Some p => if bool_decide (p = "") then _ else p
                    | None => _
                    end).
  destruct (negb _); [done |].
  destruct (ingest_documents docs_path tree w) as [[r|?] w1] eqn:Hr;
    [| done].
  destruct (i_chunks r) as [|c cs] eqn:Hc; [done |].
  rewrite <- Hc.
  destruct (add_documents (__init__ 1536) (i_chunks r) (i_embeddings r)
              (i_metadata r)) as [[[]|?] store] eqn:Ha; [| done].
  destruct (save store (store_path base_dir org) fs) as [[[]|?] fs1] eqn:Hs;
    [| done].
  intros [= <- <-].
  pose proof (save_holds_snapshot _ _ _ _ Hs) as Hsnap.
  pose proof (ingest_documents_lengths _ _ _ _ _ Hr) as [Hcm Hes].
  apply add_documents_Ok in Ha.
  exists docs_path, r, store. split_and!; [done | by rewrite Hc | done | ..].
  - destruct Ha as [[_ ->] | [Hne ->]]; [apply init_aligned |].
    destruct Hes as [? | Hes]; [done |].
    apply extended_aligned; [apply init_aligned | done | congruence].
  - unfold get_vector_store. simpl.
    rewrite (path_exists_Some _ _ _ (save_makes_dir _ _ _ _ Hs)).
    rewrite (load_snapshot _ _ _ _ Hsnap). simpl.
    by destruct Ha as [[_ ->] | [_ ->]].
  - destruct Ha as [[? ->] | [Hne ->]]; [by left | right].
    by destruct Hes.
Qed.

(** X20: when [main] exits with 1, it has written nothing and made no
    call to the embedding service: the documents directory is missing,
    or no file in it gave a chunk. *)
Theorem main_exit_1 org docs_path_arg
    (tree : gmap string (list document)) (fs fs' : gmap string os.node)
    w w' :
  main base_dir org docs_path_arg tree fs w = (Ok 1, fs', w') →
  fs' = fs ∧ w' = w.
Proof.
  unfold main.
  set (docs_path := match docs_path_arg with
                    | Some p => if bool_decide (p = "") then _ else p
                    | None => _
                    end).
  destruct (negb _); [by intros [= <- <-] |].
  destruct (ingest_documents docs_path tree w) as [[r|?] w1] eqn:Hr;
    [| done].
  destruct (i_chunks r) as [|c cs] eqn:Hc.
  - intros [= <- <-]. split; [done |].
    apply ingest_documents_Ok in Hr
      as [(_ & -> & _) | (entries & _ & _ & He)]; [done |].
    rewrite Hc, create_embeddings_nil in He. by injection He.
  - destruct (add_documents _ _ _ _) as [[[]|?] store]; [| done].
    by destruct (save _ _ _) as [[[]|?] ?].
Qed.
End ingest_cli_properties.

(** * ingest.py: the size of the chunks *)

Section chunk_sizes.

Lemma chunk_length_app (a b : list string) :
  chunk_length (a ++ b) = chunk_length a + chunk_length b.
Proof.
  unfold chunk_length. induction a as [|w a IH]; [done |].
  simpl. rewrite IH. lia.
Qed.

Lemma join_length (ws : list string) :
  ws ≠ [] → Z.of_nat (String.length (join " " ws)) = chunk_length ws - 1.
Proof.
  induction ws as [|w ws IH]; [done |]. intros _.
  destruct ws as [|w' ws].
  - unfold chunk_length. simpl. lia.
  - change (join " " (w :: w' :: ws))
      with (w +:+ " " +:+ join " " (w' :: ws)).
    rewrite !append_length.
    change (chunk_length (w :: w' :: ws))
      with (Z.of_nat (String.length w) + 1 + chunk_length (w' :: ws)).
    simpl String.length at 2. specialize (IH ltac:(done)). lia.
Qed.

Lemma chunk_loop_sizes (chunk_size overlap : Z) (words : list string) :
  ∀ chunks cur chunks' cur',
    Forall (λ c, chunk_size - 1 ≤ Z.of_nat (String.length c)) chunks →
    chunk_loop chunk_size overlap words chunks cur (chunk_length cur)
      = Ok (chunks', cur') →
    Forall (λ c, chunk_size - 1 ≤ Z.of_nat (String.length c)) chunks'.
Proof.
  induction words as [|w words IH]; intros chunks cur chunks' cur' Hall.
  - by intros [= <- _].
  - cbn [chunk_loop]. cbv zeta.
    replace (chunk_length cur + (Z.of_nat (String.length w) + 1))
      with (chunk_length (cur ++ [w]))
      by (rewrite chunk_length_app; unfold chunk_length; simpl; lia).
    destruct (chunk_size <=? chunk_length (cur ++ [w])) eqn:Hge.
    + apply Z.leb_le in Hge.
      destruct (overlap_words_of _ _ _) as [ov|]; [| done].
      unfold mbind, result_bind. apply IH.
      apply Forall_app. split; [done |]. constructor; [| done].
      rewrite join_length by (by destruct cur). lia.
    + by apply IH.
Qed.

(** X24: the chunk size is a threshold, not a maximum: every chunk but
    the last has at least [chunk_size - 1] characters (a chunk is closed
    by the word that takes it to [chunk_size], counting one separator
    per word). *)
Theorem chunk_text_sizes (text : string) (chunk_size overlap : Z) chunks :
  chunk_text text chunk_size overlap = Ok chunks →
  Forall (λ c, chunk_size - 1 ≤ Z.of_nat (String.length c))
    (take (length chunks - 1) chunks).
Proof.
  unfold chunk_text.
  destruct (chunk_loop chunk_size overlap (split text) [] [] 0)
    as [[cs cur]|] eqn:Hloop; [| done].
  apply (chunk_loop_sizes _ _ _ [] []) in Hloop; [| constructor].
  simpl. destruct cur as [|w cur]; intros [= <-].
  - by apply Forall_take.
  - rewrite length_app. simpl.
    replace (length cs + 1 - 1)%nat with (length cs) by lia.
    by rewrite take_app_length.
Qed.
End chunk_sizes.

(** * config/loader.py *)

Section loader_properties.
Variable base : string.

(** X21: [load_org_config] caches what it reads and nothing else.
    Either the call returns a configuration that is then cached under
    the organization, and every later call for the organization
    returns it, whatever path is given and whatever the files hold by
    then; or the call found no cached entry and could not read the
    file, returns the default configuration or the empty one, and
    leaves the cache as it was. *)
Theorem load_org_config_caches org_name path
    (configs : gmap string (result json)) (cache : gmap string json)
    path' (configs' : gmap string (result json)) :
  let config := (load_org_config base org_name path configs cache).1 in
  let cache' := (load_org_config base org_name path configs cache).2 in
  (cache' !! org_name = Some config ∧
   load_org_config base org_name path' configs' cache' = (config, cache')) ∨
  (cache' = cache ∧ cache !! org_name = None ∧
   (config = default_config org_name ∨ config = JDict [])).
Proof.
  unfold load_org_config at 1 2.
  destruct (cache !! org_name) as [c|] eqn:Hc; simpl.
  - left. split; [done |]. unfold load_org_config. by rewrite Hc.
  - destruct (configs !! _) as [[c | e]|]; simpl.
    + left. rewrite lookup_insert_eq. split; [done |].
      unfold load_org_config. by rewrite lookup_insert_eq.
    + right. destruct e; simpl; auto.
    + right. auto.
Qed.

(** X22: a failure is not cached: when the file of an organization
    that has no cached entry is missing, unreadable or not JSON, the
    next call reads the file again and returns, and caches, what it
    holds by then. *)
Theorem load_org_config_retries org_name p
    (configs configs' : gmap string (result json))
    (cache : gmap string json) config :
  cache !! org_name = None →
  (∀ c, configs !! p ≠ Some (Ok c)) →
  configs' !! p = Some (Ok config) →
  load_org_config base org_name (Some p) configs'
    (load_org_config base org_name (Some p) configs cache).2
    = (config, <[org_name := config]> cache).
Proof.
  intros Hc Hfail Hok.
  assert ((load_org_config base org_name (Some p) configs cache).2 = cache)
    as ->.
  { unfold load_org_config. rewrite Hc.
    destruct (configs !! p) as [[c | e]|] eqn:Hp; [| by destruct e | done].
    by destruct (Hfail c). }
  unfold load_org_config. by rewrite Hc, Hok.
Qed.

(** X23: the cache is per organization: a call for one organization
    changes nothing for another, whose next call returns what it would
    have returned without it. *)
Theorem load_org_config_per_org org_name path
    (configs : gmap string (result json)) (cache : gmap string json)
    org_name' path' (configs' : gmap string (result json)) :
  org_name ≠ org_name' →
  (load_org_config base org_name' path' configs'
     (load_org_config base org_name path configs cache).2).1
    = (load_org_config base org_name' path' configs' cache).1.
Proof.
  intros Hne.
  assert ((load_org_config base org_name path configs cache).2 !! org_name'
            = cache !! org_name') as Hframe.
  { unfold load_org_config. destruct (cache !! org_name); [done |].
    destruct (configs !! _) as [[c | e]|]; simpl;
      [by rewrite lookup_insert_ne | by destruct e | done]. }
  unfold load_org_config at 1 3. rewrite Hframe.
  destruct (cache !! org_name'); [done |].
  by destruct (configs' !! _) as [[c | e]|]; [| destruct e |].
Qed.
End loader_properties.

(** * ingest.py: the files found and the text extracted *)

Section files_properties.
Context `{Env : Environment}.

Lemma ends_with_app (sfx name : string) :
  ends_with sfx name = true → ∃ pre, name = pre +:+ sfx.
Proof.
  induction name as [|c name IH]; cbn [ends_with];
    intros [Heq%bool_decide_eq_true | Hrest]%orb_true_iff;
    try (exists ""; by rewrite append_nil); try done.
  destruct (IH Hrest) as [pre ->]. exists (String c pre).
  by rewrite append_cons.
Qed.

Lemma ends_with_length (sfx name : string) :
  ends_with sfx name = true → (String.length sfx ≤ String.length name)%nat.
Proof.
  induction name as [|c name IH]; cbn [ends_with];
    intros [Heq%bool_decide_eq_true | Hrest]%orb_true_iff;
    try (by subst); try done.
  specialize (IH Hrest). simpl. lia.
Qed.

Lemma ends_with_unique (sfx sfx' name : string) :
  String.length sfx = String.length sfx' →
  ends_with sfx name = true → ends_with sfx' name = true → sfx = sfx'.
Proof.
  intros Hlen. induction name as [|c name IH]; cbn [ends_with];
    intros [H1%bool_decide_eq_true | H1]%orb_true_iff
           [H2%bool_decide_eq_true | H2]%orb_true_iff;
    try congruence; try done.
  - apply ends_with_length in H2. subst sfx. simpl in *. lia.
  - apply ends_with_length in H1. subst sfx'. simpl in *. lia.
  - by apply IH.
Qed.

Lemma from_last_dot_ext (pre ext : string) :
  from_last_dot ext = Some ext → from_last_dot (pre +:+ ext) = Some ext.
Proof.
  intros Hext. induction pre as [|c pre IH]; [by rewrite append_nil |].
  rewrite append_cons. cbn [from_last_dot]. by rewrite IH.
Qed.

Lemma suffix_ext (name ext : string) :
  from_last_dot ext = Some ext → ext ≠ "." →
  ends_with ext name = true → name ≠ ext → suffix name = ext.
Proof.
  intros Hext Hdot [pre ->]%ends_with_app Hne.
  destruct pre as [|c pre]; [by rewrite append_nil in Hne |].
  rewrite append_cons. unfold suffix.
  rewrite from_last_dot_ext by done. by rewrite bool_decide_false.
Qed.

(** X25: every file that [glob('*.txt')] finds is read as text, except
    the file named just [.txt]: it matches the pattern but has no
    suffix for [pathlib], so it is taken for an unsupported type and
    gives the empty text. *)
Theorem extract_text_globbed_txt (file : document) :
  ends_with ".txt" (doc_name file) = true →
  extract_text_from_file file
    = if bool_decide (doc_name file = ".txt") then Ok "" else doc_text file.
Proof.
  intros Hname. unfold extract_text_from_file.
  destruct (bool_decide (doc_name file = ".txt")) eqn:Hn.
  - apply bool_decide_eq_true in Hn. by rewrite Hn.
  - apply bool_decide_eq_false in Hn.
    by rewrite (suffix_ext _ ".txt").
Qed.

(** X26: where PyPDF2 is not installed, [extract_text_from_file] gives
    the empty text for every file named [*.pdf], without opening it,
    and [ingest_documents] then takes no chunk from it. *)
Theorem pdf_without_pypdf2 (file : document) files all_chunks all_metadata :
  pypdf2_installed = false →
  ends_with ".pdf" (doc_name file) = true →
  extract_text_from_file file = Ok "" ∧
  ingest_files (file :: files) all_chunks all_metadata
    = ingest_files files all_chunks all_metadata.
Proof.
  intros Hpdf Hname.
  assert (extract_text_from_file file = Ok "") as Hx.
  { unfold extract_text_from_file. rewrite Hpdf.
    destruct (decide (doc_name file = ".pdf")) as [-> | Hn]; [done |].
    by rewrite (suffix_ext _ ".pdf"). }
  split; [done |]. cbn [ingest_files]. by rewrite Hx.
Qed.

(** X27: no file is processed twice: a name matches at most one of the
    two patterns, so the files that [ingest_documents] and
    [ingest_documents_local] loop over have distinct names when the
    entries of the directory have. *)
Theorem files_distinct (entries : list document) :
  NoDup (doc_name <$> entries) →
  NoDup (doc_name <$> (glob ".txt" entries ++ glob ".pdf" entries)).
Proof.
  intros Hnd. rewrite fmap_app. apply NoDup_app. split_and!.
  - apply (sublist_NoDup _ (doc_name <$> entries)); [exact Hnd |].
    apply fmap_sublist. apply sublist_filter.
  - intros name (f & -> & [Hf _]%list_elem_of_filter)%list_elem_of_fmap
      (g & Hfg & [Hg _]%list_elem_of_filter)%list_elem_of_fmap.
    rewrite Hfg in Hf.
    by pose proof (ends_with_unique ".txt" ".pdf" _ eq_refl Hf Hg).
  - apply (sublist_NoDup _ (doc_name <$> entries)); [exact Hnd |].
    apply fmap_sublist. apply sublist_filter.
Qed.
End files_properties.

(** * Concrete runs of the further properties *)

Lemma add_documents_twice_witness :
  add_documents
    (add_documents (__init__ 1) ["a"] [[1]] [meta "a.txt" 0]).2
    ["b"] [[2]] [meta "b.txt" 0]
  = add_documents (__init__ 1) (["a"] ++ ["b"]) ([[1]] ++ [[2]])
      ([meta "a.txt" 0] ++ [meta "b.txt" 0]).
Proof.
  apply (add_documents_twice (F32 := exact_ints) (__init__ 1)
           ["a"] ["b"] [[1]] [[2]] [meta "a.txt" 0] [meta "b.txt" 0]);
    done.
Defined.

Lemma search_bounded_witness :
  let results := [("A office hours 9-5", meta "faq.txt" 0, 2);
                  ("B contact support@x.com", meta "faq.txt" 1, 162)] in
  (length results
     ≤ Z.to_nat (Z.min 5 (Z.of_nat (length (chunks kb_store)))))%nat ∧
  Forall (λ r, r.1.1 ∈ chunks kb_store ∧ r.1.2 ∈ metadata kb_store) results.
Proof.
  apply (search_bounded (F32 := exact_ints) kb_store [9; 1; 0] 5).
  vm_compute. reflexivity.
Defined.

Lemma search_assertion_witness :
  search kb_store [1; 2] 5 = Raise AssertionError ↔
  Z.of_nat (length [1; 2]) ≠ faiss.d (index kb_store) ∨ 5 ≤ 0.
Proof.
  apply (search_assertion (F32 := exact_ints) kb_store [1; 2] 5).
  vm_compute. discriminate.
Defined.

Lemma load_during_save_witness :
  let reader := __init__ 3 in
  ∃ fs1 fs2 fs3,
    os.observable (save_steps new_store "kb") fs_kb
      = [fs1; fs2; fs3; (save new_store "kb" fs_kb).2] ∧
    load reader "kb" fs2
      = (Ok (), {| dimension := dimension reader; index := index new_store;
                   chunks := chunks kb_store;
                   metadata := metadata kb_store |}) ∧
    ∃ e, load reader "kb" fs3
      = (Raise e, {| dimension := dimension reader;
                     index := index new_store; chunks := chunks reader;
                     metadata := metadata reader |}).
Proof.
  apply (load_during_save (F32 := exact_ints) (__init__ 3) new_store
           kb_store "kb" fs_kb).
  - split; vm_compute; reflexivity.
  - vm_compute. reflexivity.
Defined.

Lemma save_twice_witness : save kb_store "kb" fs_kb = (Ok (), fs_kb).
Proof.
  apply (save_twice (F32 := exact_ints) kb_store "kb" ∅ fs_kb).
  vm_compute. reflexivity.
Defined.

(** The first retrieval finds nothing on disk; the second still
    returns nothing although both organizations have a snapshot by
    then. *)
Lemma retrieve_stays_empty_witness :
  ∃ p,
    retrieve_relevant_chunks (Env := counting_service) "/srv"
      "opening hours?" 5 "org_a" ∅ start 0%nat = ([], p, 0%nat) ∧
    retrieve_relevant_chunks (Env := counting_service) "/srv"
      "opening hours?" 5 "org_a" fs_two p 7%nat = ([], p, 7%nat).
Proof.
  apply (retrieve_stays_empty (Env := counting_service) "/srv"
           "opening hours?" 5 "org_a" ∅ 0%nat
           "opening hours?" 5 "org_a" fs_two 7%nat).
  left. vm_compute. reflexivity.
Defined.

(** The service answers with 1536 numbers; the cached store holds
    three-dimensional vectors. *)
Lemma retrieve_swallows_witness :
  let p := {| heap := [kb_store]; _vector_store := Some 0%nat |} in
  retrieve_relevant_chunks (Env := counting_service) "/srv" "hours?" 5
    "org_a" ∅ p 0%nat = ([], p, 1%nat).
Proof.
  apply (retrieve_swallows (Env := counting_service) "/srv" "hours?" 5
           "org_a" ∅ {| heap := [kb_store]; _vector_store := Some 0%nat |}
           0%nat kb_store 0%nat (Ok (replicate 1536 6)) 1%nat).
  - reflexivity.
  - reflexivity.
  - vm_compute. discriminate.
  - reflexivity.
  - right. left. vm_compute. discriminate.
Defined.


(** Two chunks stored farthest first come back nearest first. *)
Example retrieve_nearest_run :
  let s := (add_documents (__init__ 1) ["far"; "near"] [[100]; [7]]
              [meta "a.txt" 0; meta "a.txt" 1]).2 in
  let p := {| heap := [s]; _vector_store := Some 0%nat |} in
  retrieve_relevant_chunks (Env := short_text_service) "/srv" "hours?" 5
    "org_b" ∅ p 0%nat = (["near"; "far"], p, 1%nat).
Proof. vm_compute. reflexivity. Qed.

Lemma create_embeddings_stops_witness :
  create_embeddings (Env := short_text_service)
    (["short"] ++ "a text of more than ten" :: ["never sent"]) 0%nat
  = ([], 2%nat).
Proof.
  apply (create_embeddings_stops (Env := short_text_service) ["short"]
           "a text of more than ten" ["never sent"] 0%nat [[5]] 1%nat
           RuntimeError 2%nat); reflexivity.
Defined.

Lemma ingest_documents_labelled_witness :
  let r := sample_ingested in
  Forall2 (λ c m, ∃ file text file_chunks (i : nat),
             file ∈ default [] (sample_tree !! "docs") ∧
             (ends_with ".txt" (doc_name file) = true ∨
              ends_with ".pdf" (doc_name file) = true) ∧
             extract_text_from_file (Env := counting_service) file
               = Ok text ∧
             chunk_text text 500 50 = Ok file_chunks ∧
             file_chunks !! i = Some c ∧
             m = meta (doc_name file) (Z.of_nat i))
    (i_chunks r) (i_metadata r) ∧
  (i_embeddings r = [] ∨ length (i_embeddings r) = length (i_chunks r)).
Proof.
  apply (ingest_documents_labelled (Env := counting_service) "docs"
           sample_tree 0%nat _ 2%nat).
  vm_compute. reflexivity.
Defined.

Lemma ingest_then_add_aligned_witness :
  aligned
    (add_documents (__init__ 1536) (i_chunks sample_ingested)
       (i_embeddings sample_ingested) (i_metadata sample_ingested)).2.
Proof.
  apply (ingest_then_add_aligned (Env := counting_service) "docs"
           sample_tree 0%nat sample_ingested 2%nat 1536).
  vm_compute. reflexivity.
Defined.

Lemma ingest_documents_unreadable_witness :
  ∃ e', ingest_documents (Env := counting_service) "docs" broken_tree 0%nat
          = (Raise e', 0%nat).
Proof.
  apply (ingest_documents_unreadable (Env := counting_service) "docs"
           broken_tree
           [text_file "faq.txt" "Office hours are 9 to 5.";
            broken_file "bad.txt";
            text_file "contact.txt" "Write to support@x.com."]
           (broken_file "bad.txt") ValueError 0%nat).
  - vm_compute. reflexivity.
  - apply list_elem_of_further, list_elem_of_here.
  - left. reflexivity.
  - reflexivity.
Defined.

Lemma ingest_local_same_chunks_witness :
  i_chunks (ingest_documents_local (Env := counting_service) "docs"
              "all-MiniLM-L6-v2" sample_tree 0%nat).1
  = i_chunks sample_ingested.
Proof.
  apply (ingest_local_same_chunks (Env := counting_service) "docs"
           "all-MiniLM-L6-v2" sample_tree 0%nat sample_ingested
           2%nat 0%nat).
  vm_compute. reflexivity.
Defined.

(** With the service down [main] still exits with 0, over the snapshot
    of an empty store. *)
Lemma main_then_get_vector_store_witness :
  let out := main (Env := failing_service) "/srv" "acme" (Some "docs")
               sample_tree ∅ 0%nat in
  out.1.1 = Ok 0 ∧
  ∃ docs_path r store,
    ingest_documents (Env := failing_service) docs_path sample_tree 0%nat
      = (Ok r, out.2) ∧
    i_chunks r ≠ [] ∧
    holds_snapshot (store_path "/srv" "acme") out.1.2 store ∧
    aligned store ∧
    get_vector_store "/srv" "acme" out.1.2 start
      = (0%nat, {| heap := [store]; _vector_store := Some 0%nat |}) ∧
    ((i_embeddings r = [] ∧ store = __init__ 1536) ∨
     (length (i_embeddings r) = length (i_chunks r) ∧
      chunks store = i_chunks r ∧ metadata store = i_metadata r ∧
      faiss.xb (index store)
        = map (map astype_float32) (i_embeddings r))).
Proof.
  split; [vm_compute; reflexivity |].
  apply (main_then_get_vector_store (Env := failing_service) "/srv" "acme"
           (Some "docs") sample_tree ∅).
  vm_compute. reflexivity.
Defined.

(** A documents directory whose only file is blank. *)
Lemma main_exit_1_witness :
  let tree : gmap string (list document) :=
    {[ "docs" := [text_file "empty.txt" "   "] ]} in
  main (Env := counting_service) "/srv" "acme" (Some "docs") tree fs_kb
    7%nat = (Ok 1, fs_kb, 7%nat) ∧
  fs_kb = fs_kb ∧ 7%nat = 7%nat.
Proof.
  split; [vm_compute; reflexivity |].
  apply (main_exit_1 (Env := counting_service) "/srv" "acme" (Some "docs")
           {[ "docs" := [text_file "empty.txt" "   "] ]} fs_kb fs_kb
           7%nat 7%nat).
  vm_compute. reflexivity.
Defined.

Lemma chunk_text_sizes_witness :
  Forall (λ c, 5 - 1 ≤ Z.of_nat (String.length c))
    (take (length ["aa bb"; "cc dd"] - 1) ["aa bb"; "cc dd"]).
Proof.
  apply (chunk_text_sizes "aa bb cc dd" 5 0 ["aa bb"; "cc dd"]).
  vm_compute. reflexivity.
Defined.

Lemma load_org_config_retries_witness :
  let p := "/srv/data/acme/config.json" in
  let config := JDict [("tone", JStr "formal")] in
  load_org_config "/srv" "acme" (Some p) {[ p := Ok config ]}
    (load_org_config "/srv" "acme" (Some p) ∅ ∅).2
  = (config, <["acme" := config]> ∅).
Proof.
  apply (load_org_config_retries "/srv" "acme" "/srv/data/acme/config.json"
           ∅ {[ "/srv/data/acme/config.json"
                  := Ok (JDict [("tone", JStr "formal")]) ]} ∅
           (JDict [("tone", JStr "formal")])).
  - reflexivity.
  - intros c. vm_compute. discriminate.
  - vm_compute. reflexivity.
Defined.

Lemma load_org_config_per_org_witness :
  let config := JDict [("tone", JStr "formal")] in
  (load_org_config "/srv" "org_b" None ∅
     (load_org_config "/srv" "org_a" (Some "a.json")
        {[ "a.json" := Ok config ]} ∅).2).1
  = (load_org_config "/srv" "org_b" None ∅ ∅).1.
Proof.
  apply (load_org_config_per_org "/srv" "org_a" (Some "a.json")
           {[ "a.json" := Ok (JDict [("tone", JStr "formal")]) ]} ∅
           "org_b" None ∅).
  discriminate.
Defined.

(** The file named just [.txt] is found and gives no text. *)
Lemma extract_text_globbed_txt_witness :
  let file := text_file ".txt" "hidden notes" in
  extract_text_from_file (Env := counting_service) file
  = if bool_decide (doc_name file = ".txt") then Ok "" else doc_text file.
Proof.
  apply (extract_text_globbed_txt (Env := counting_service)
           (text_file ".txt" "hidden notes")).
  reflexivity.
Defined.

Lemma pdf_without_pypdf2_witness :
  let file := text_file "manual.pdf" "" in
  extract_text_from_file (Env := failing_service) file = Ok "" ∧
  ingest_files (Env := failing_service)
    [file; text_file "faq.txt" "Office hours are 9 to 5."] [] []
  = ingest_files (Env := failing_service)
      [text_file "faq.txt" "Office hours are 9 to 5."] [] [].
Proof.
  apply (pdf_without_pypdf2 (Env := failing_service)
           (text_file "manual.pdf" "")
           [text_file "faq.txt" "Office hours are 9 to 5."] [] []);
    reflexivity.
Defined.

Lemma files_distinct_witness :
  let entries := [text_file "faq.txt" "Office hours are 9 to 5.";
                  text_file "manual.pdf" "";
                  text_file "contact.txt" "Write to support@x.com."] in
  NoDup (doc_name <$> (glob ".txt" entries ++ glob ".pdf" entries)).
Proof.
  apply (files_distinct
           [text_file "faq.txt" "Office hours are 9 to 5.";
            text_file "manual.pdf" "";
            text_file "contact.txt" "Write to support@x.com."]).
  simpl. rewrite !NoDup_cons, !not_elem_of_cons, NoDup_nil.
  split_and!; try discriminate; try apply not_elem_of_nil. exact I.
Defined.
